(** * docs/github_readme.py: the README assembly pipeline

    A shallow embedding of the generator pipeline that builds README.rst
    from documentation fragments, and the properties of its stages.

    - Python [str] values are lists of Unicode code points ([N]).
    - A generator is the finite trace of what its body does when it is
      pulled: it yields an item and goes on, returns, or raises.  What
      happens between two [yield]s (opening a file, for instance) sits
      behind the earlier [Yield], so the position of an effect in the
      trace is the pull at which it happens.
    - A generator object is consumed once; every stream handed to a stage
      is a generator of its own (as [include_documents] builds them). *)

From Stdlib Require Import List NArith Arith Bool Ascii String Lia.
Import ListNotations.
Local Open Scope N_scope.
Local Open Scope list_scope.

(* ------------------------------------------------------------------ *)
(** ** Python strings *)

Definition char := N.
Definition str := list char.

(** A literal without escapes. *)
Definition lit (s : string) : str := map N_of_ascii (list_ascii_of_string s).
Arguments lit s%_string.

Definition LF : char := 0x0A.
Definition CR : char := 0x0D.

(** [str.isspace] on one code point (Py_UNICODE_ISSPACE). *)
Definition isspace (c : char) : bool :=
  ((0x09 <=? c) && (c <=? 0x0D)) || ((0x1C <=? c) && (c <=? 0x20))
  || (c =? 0x85) || (c =? 0xA0) || (c =? 0x1680)
  || ((0x2000 <=? c) && (c <=? 0x200A))
  || (c =? 0x2028) || (c =? 0x2029) || (c =? 0x202F) || (c =? 0x205F)
  || (c =? 0x3000).

(** The line boundaries of [str.splitlines] (Py_UNICODE_ISLINEBREAK). *)
Definition islinebreak (c : char) : bool :=
  ((0x0A <=? c) && (c <=? 0x0D)) || ((0x1C <=? c) && (c <=? 0x1E))
  || (c =? 0x85) || (c =? 0x2028) || (c =? 0x2029).

(** [line.startswith(prefix)] *)
Fixpoint startswith (prefix line : str) : bool :=
  match prefix, line with
  | [], _ => true
  | _ :: _, [] => false
  | p :: prefix', c :: line' => (p =? c) && startswith prefix' line'
  end.

(** [line.endswith(suffix)] *)
Definition endswith (suffix line : str) : bool :=
  startswith (rev suffix) (rev line).

Fixpoint dropwhile (p : char -> bool) (s : str) : str :=
  match s with
  | [] => []
  | c :: s' => if p c then dropwhile p s' else s
  end.

Fixpoint takewhile (p : char -> bool) (s : str) : str :=
  match s with
  | [] => []
  | c :: s' => if p c then c :: takewhile p s' else []
  end.

Definition lstrip (s : str) : str := dropwhile isspace s.
Definition rstrip (s : str) : str := rev (dropwhile isspace (rev s)).

(** [s.strip()]: whitespace removed at both ends. *)
Definition strip (s : str) : str := rstrip (lstrip s).

(** [s[:-n]] for [n > 0]. *)
Definition slice_to_minus (n : nat) (s : str) : str :=
  firstn (List.length s - n) s.

(** [s.replace(old, new)] for a non-empty [old]: the occurrences of [old]
    are found from the left and do not overlap.  [skip] counts the
    characters of a matched occurrence that are still to be passed. *)
Fixpoint replace_from (old new : str) (skip : nat) (s : str) : str :=
  match s with
  | [] => []
  | c :: s' =>
      match skip with
      | S k => replace_from old new k s'
      | O =>
          if startswith old s
          then new ++ replace_from old new (List.length old - 1) s'
          else c :: replace_from old new 0 s'
      end
  end.

Definition replace (old new s : str) : str := replace_from old new 0 s.

(** [s.rsplit(maxsplit=1)], splitting at whitespace from the right: the
    last word, preceded by what is left of it once the whitespace between
    them is removed (when anything is left). *)
Definition rsplit1 (s : str) : list str :=
  let r := dropwhile isspace (rev s) in
  match r with
  | [] => []
  | _ :: _ =>
      let word := takewhile (fun c => negb (isspace c)) r in
      let rest := dropwhile isspace (dropwhile (fun c => negb (isspace c)) r) in
      match rest with
      | [] => [rev word]
      | _ :: _ => [rev rest; rev word]
      end
  end.

(** [template % arg] for a template with one [%s] conversion and no other
    [%]: the argument takes the place of the conversion. *)
Fixpoint percent (template arg : str) : str :=
  match template with
  | [] => []
  | c :: t =>
      match t with
      | d :: t' =>
          if (c =? 0x25) && (d =? 0x73) then arg ++ t'
          else c :: percent t arg
      | [] => [c]
      end
  end.

(** Lines with their terminators kept.  [crlf] pairs a carriage return with
    the line feed after it, as [str.splitlines(True)] does; [cur] is the
    line being read. *)
Fixpoint lines_keepends (isbreak : char -> bool) (crlf : bool)
    (cur : str) (s : str) : list str :=
  match s with
  | [] => match cur with [] => [] | _ :: _ => [cur] end
  | c :: s' =>
      if isbreak c then
        match s' with
        | d :: s'' =>
            if crlf && (c =? CR) && (d =? LF)
            then (cur ++ [c; d]) :: lines_keepends isbreak crlf [] s''
            else (cur ++ [c]) :: lines_keepends isbreak crlf [] s'
        | [] => [cur ++ [c]]
        end
      else lines_keepends isbreak crlf (cur ++ [c]) s'
  end.

(** [text.splitlines(True)] *)
Definition splitlines (text : str) : list str :=
  lines_keepends islinebreak true [] text.

(** The lines a text-mode file object yields when it is iterated: the text
    as decoded (newlines already translated) is cut after each line feed. *)
Definition readlines (text : str) : list str :=
  lines_keepends (fun c => c =? LF) false [] text.

(** What [open(file_name)] makes of the text of a file: with the default
    [newline=None] a carriage return with the line feed after it, and a
    carriage return alone, are read as one line feed. *)
Fixpoint universal_newlines (raw : str) : str :=
  match raw with
  | [] => []
  | c :: raw' =>
      if c =? CR then
        LF :: match raw' with
              | d :: raw'' =>
                  if d =? LF then universal_newlines raw''
                  else universal_newlines raw'
              | [] => []
              end
      else c :: universal_newlines raw'
  end.

(* ------------------------------------------------------------------ *)
(** ** Generators *)

Inductive exn : Type :=
| FileNotFoundError
| IsADirectoryError
| PermissionError
| ValueError
| TypeError.

(** What a generator does from its current point on. *)
Inductive gen (A : Type) : Type :=
| Return : gen A                      (* the body ends: StopIteration *)
| Yield : A -> gen A -> gen A         (* [yield a], then the rest *)
| Raise : exn -> gen A.               (* an exception leaves the body *)
Arguments Return {A}.
Arguments Yield {A} _ _.
Arguments Raise {A} _.

(** The outcome of one pull, [next(g)]. *)
Inductive pulled (A : Type) : Type :=
| Item : A -> gen A -> pulled A       (* the item, and the generator after it *)
| StopIteration : pulled A
| Raised : exn -> pulled A.
Arguments Item {A} _ _.
Arguments StopIteration {A}.
Arguments Raised {A} _.

Definition next {A} (g : gen A) : pulled A :=
  match g with
  | Return => StopIteration
  | Yield a g' => Item a g'
  | Raise e => Raised e
  end.

(** [yield from g], followed by the statements [k]. *)
Fixpoint yield_from {A} (g : gen A) (k : gen A) : gen A :=
  match g with
  | Return => k
  | Yield a g' => Yield a (yield_from g' k)
  | Raise e => Raise e
  end.

(** Iterating a list ([yield from] over it, or a call's argument). *)
Fixpoint of_list {A} (l : list A) : gen A :=
  match l with
  | [] => Return
  | a :: l' => Yield a (of_list l')
  end.

(** The items a generator yields until it returns or raises. *)
Fixpoint items {A} (g : gen A) : list A :=
  match g with
  | Yield a g' => a :: items g'
  | _ => []
  end.

(** How a generator ends: [None] for a return. *)
Fixpoint ending {A} (g : gen A) : option exn :=
  match g with
  | Return => None
  | Yield _ g' => ending g'
  | Raise e => Some e
  end.

(** The value [iter(v)] iterates, where [None] is Python's [None]. *)
Definition iter {A} (v : option (gen A)) : gen A :=
  match v with
  | Some g => g
  | None => Raise TypeError
  end.

(** [functools.reduce(function, sequence, initial)] *)
Fixpoint reduce {V S : Type} (function : V -> S -> V) (sequence : list S)
    (initial : V) : V :=
  match sequence with
  | [] => initial
  | x :: sequence' => reduce function sequence' (function initial x)
  end.

(* ------------------------------------------------------------------ *)
(** ** The script *)

(** [FILE_HEADER = '.. Source defined in %s\n\n'] *)
Definition FILE_HEADER : str := lit ".. Source defined in %s" ++ [LF; LF].

(** The separator [concatenate] yields: ['\n\n']. *)
Definition SEPARATOR : str := [LF; LF].

(** What a path names: a file that [open] reads, with its text as stored,
    or something [open] refuses with an error of its own (a directory, a
    file without permission). *)
Inductive file : Type :=
| Readable (raw : str)
| Unreadable (e : exn).

Section Reader.
(** The file system and [os.path], as the script sees them. *)
Variable relpath : str -> str -> str.
Variable PROJECT : str.                  (* the value of [PROJECT()] *)
Variable script : str.                   (* [__file__] *)
Variable SOURCE : str -> str.
(** What each path names, [None] when it names nothing. *)
Variable fs : str -> option file.

(** [open(file_name)] and the iteration over the file. *)
Definition open_lines (file_name : str) : gen str :=
  match fs file_name with
  | None => Raise FileNotFoundError
  | Some (Unreadable e) => Raise e
  | Some (Readable raw) => of_list (readlines (universal_newlines raw))
  end.

Definition read_file (file_name : str) : gen str :=
  Yield (percent FILE_HEADER (relpath file_name PROJECT))
    (yield_from (open_lines file_name) Return).

Definition read_text (text : str) : gen str :=
  Yield (percent FILE_HEADER (relpath script PROJECT))
    (yield_from (of_list (splitlines text)) Return).

Definition read_source (file_name : str) : gen str :=
  yield_from (read_file (SOURCE file_name)) Return.
End Reader.

Fixpoint concatenate (sources : gen (gen str)) : gen str :=
  match sources with
  | Return => Return
  | Yield source sources' =>
      yield_from source (Yield SEPARATOR (concatenate sources'))
  | Raise e => Raise e
  end.

(** The conditions [rule__code_blocks] tests on each line: the two it
    names, and the one that recognises a highlight directive. *)
Definition is_new_file (line : str) : bool :=
  startswith (slice_to_minus 5 FILE_HEADER) line.

Definition is_code_block_shorthand (line : str) : bool :=
  endswith (lit "::" ++ [LF]) line && negb (startswith (lit "..") (strip line)).

Definition is_highlight (line : str) : bool :=
  startswith (lit ".. highlight:: ") line.

(** The loop of [rule__code_blocks], entered with the current value of
    [code_block_language]. *)
Fixpoint code_blocks_loop (code_block_language : str) (lines : gen str)
    : gen str :=
  match lines with
  | Return => Return
  | Raise e => Raise e
  | Yield line lines' =>
      if is_highlight line then
        match rsplit1 line with
        | [_; language] => code_blocks_loop language lines'
        | _ => Raise ValueError
        end
      else
        let code_block_language :=
          if is_new_file line then lit "python" else code_block_language in
        if is_code_block_shorthand line then
          Yield (replace (lit "::" ++ [LF]) [LF] line)
            (Yield (percent ([LF] ++ lit ".. code-block:: %s" ++ [LF])
                      code_block_language)
               (code_blocks_loop code_block_language lines'))
        else Yield line (code_blocks_loop code_block_language lines')
  end.

Definition rule__code_blocks (lines : gen str) : gen str :=
  code_blocks_loop (lit "python") lines.

Fixpoint rule__other_rules (lines : gen str) : gen str :=
  match lines with
  | Return => Return
  | Raise e => Raise e
  | Yield line lines' =>
      if startswith (lit ":orphan:") line then rule__other_rules lines'
      else Yield line (rule__other_rules lines')
  end.

Section Pipeline.
Context {A : Type}.

(** A step receives the result so far: [None], or a generator. *)
Definition step := option (gen A) -> gen A.

(** The inner [apply] of [pipeline]. *)
Definition apply (result : option (gen A)) (step : step) : option (gen A) :=
  Some (yield_from (step result) Return).

Definition pipeline (steps : list step) (initial : option (gen A)) : gen A :=
  yield_from (iter (reduce apply steps initial)) Return.

(** A stage written as a generator function over its lines, called with
    the result so far. *)
Definition call (f : gen A -> gen A) : step := fun result => f (iter result).
End Pipeline.

Definition sanitize (lines : gen str) : gen str :=
  yield_from
    (pipeline [call rule__code_blocks; call rule__other_rules] (Some lines))
    Return.

(* ------------------------------------------------------------------ *)
(** ** The sink: writing the file, reporting progress, the whole run *)

(** What a step does to the world besides yielding. *)
Inductive event : Type :=
| Print (text : str)                 (* text sent to standard output *)
| Open (file_name : str)             (* [open(file_name, 'w')] *)
| Write (file_name text : str)       (* [f.write(text)] *)
| Close (file_name : str).           (* the [with] block is left *)

(** A generator that acts on the world between its items: what it does
    from its current point on, in the order in which it does it. *)
Inductive run (A : Type) : Type :=
| Finish : run A                     (* the body ends *)
| Emit : A -> run A -> run A         (* [yield a], then the rest *)
| Fail : exn -> run A                (* an exception leaves the body *)
| Do : event -> run A -> run A.      (* an effect, then the rest *)
Arguments Finish {A}.
Arguments Emit {A} _ _.
Arguments Fail {A} _.
Arguments Do {A} _ _.

(** [yield from r], followed by the statements [k]. *)
Fixpoint run_yield_from {A} (r : run A) (k : run A) : run A :=
  match r with
  | Finish => k
  | Emit a r' => Emit a (run_yield_from r' k)
  | Fail e => Fail e
  | Do ev r' => Do ev (run_yield_from r' k)
  end.

(** The items [list(r)] collects, as far as [r] gets. *)
Fixpoint emitted {A} (r : run A) : list A :=
  match r with
  | Emit a r' => a :: emitted r'
  | Do _ r' => emitted r'
  | _ => []
  end.

(** How a run ends: [None] for a return. *)
Fixpoint outcome {A} (r : run A) : option exn :=
  match r with
  | Finish => None
  | Emit _ r' => outcome r'
  | Fail e => Some e
  | Do _ r' => outcome r'
  end.

(** The effects of a run that is pulled to its end, in order. *)
Fixpoint events {A} (r : run A) : list event :=
  match r with
  | Do ev r' => ev :: events r'
  | Emit _ r' => events r'
  | _ => []
  end.

(** [sep.join(words)] *)
Fixpoint join (sep : str) (words : list str) : str :=
  match words with
  | [] => []
  | [w] => w
  | w :: words' => w ++ sep ++ join sep words'
  end.

(** [print] of some objects, with its [end] argument *)
Definition print (objects : list str) (end_ : str) : event :=
  Print (join (lit " ") objects ++ end_).

(** [README = 'README.rst'] *)
Definition README : str := lit "README.rst".

(** The loop of [write_file], inside the [with] block. *)
Fixpoint write_file_loop (file_name : str) (lines : gen str) : run nat :=
  match lines with
  | Return => Do (Close file_name) Finish
  | Raise e => Do (Close file_name) (Fail e)
  | Yield line lines' =>
      Do (Write file_name line)
        (Emit (List.length line) (write_file_loop file_name lines'))
  end.

Section Writer.
(** The error [open(file_name, 'w')] raises for a path, [None] when the
    file opens.  What is written to an open file is taken to arrive. *)
Variable writable : str -> option exn.

Definition write_file (file_name : str) (lines : gen str) : run nat :=
  match writable file_name with
  | Some e => Fail e
  | None => Do (Open file_name) (write_file_loop file_name lines)
  end.
End Writer.

(** The loop of [notify]; [i] is the index [enumerate] has reached.  The
    test [i % 5 is 0] holds exactly when the remainder is zero, the small
    integers being shared objects. *)
Fixpoint notify_loop {A} (i : nat) (lines : run A) : run A :=
  match lines with
  | Finish => Do (print [lit "Done!"] [LF]) Finish
  | Fail e => Fail e
  | Do ev lines' => Do ev (notify_loop i lines')
  | Emit line lines' =>
      if Nat.eqb (Nat.modulo i 5) 0
      then Do (print [lit "."] []) (Emit line (notify_loop (S i) lines'))
      else Emit line (notify_loop (S i) lines')
  end.

Definition notify {A} (lines : run A) : run A :=
  Do (print [lit "Writing"; README] []) (notify_loop 0 lines).

(** [roles_override], the text between the triple quotes. *)
Definition roles_override : str :=
  [LF] ++ lit ".. role:: mod(literal)" ++ [LF]
  ++ lit ".. role:: data(literal)" ++ [LF]
  ++ lit ".. role:: envvar(literal)" ++ [LF].

Section Script.
(** The file system and [os.path], as the script sees them. *)
Variable relpath : str -> str -> str.
Variable PROJECT : str.                  (* the value of [PROJECT()] *)
Variable script : str.                   (* [__file__] *)
Variable SOURCE : str -> str.
Variable fs : str -> option file.
Variable writable : str -> option exn.
(** The banner, made from [__file__] and the date when the script loads. *)
Variable comment_line : str.
Variable OUT_FILE : str.

(** [include_documents(_=None)]: its argument is not used. *)
Definition include_documents : gen (gen str) :=
  Yield (read_text relpath PROJECT script comment_line)
    (Yield (read_text relpath PROJECT script roles_override)
       (Yield (read_source relpath PROJECT SOURCE fs (lit "readme_title.rst"))
          (Yield (read_source relpath PROJECT SOURCE fs (lit "readme_features.rst"))
             (Yield (read_source relpath PROJECT SOURCE fs (lit "installation.rst"))
                (Yield (read_source relpath PROJECT SOURCE fs (lit "usage.rst"))
                   (Yield (read_source relpath PROJECT SOURCE fs (lit "readme_credits.rst"))
                      Return)))))).

Definition write_out (lines : gen str) : run nat :=
  run_yield_from (write_file writable OUT_FILE lines) Finish.

(** [pipeline(process)] for [process = include_documents, concatenate,
    sanitize, write_out, notify]: each step is called with the result of
    the step before it, the first one with [None]. *)
Definition main : run nat :=
  notify (write_out (sanitize (concatenate include_documents))).
End Script.

(** The text standard output has received. *)
Definition stdout (evs : list event) : str :=
  flat_map (fun ev => match ev with Print text => text | _ => [] end) evs.

Fixpoint str_eqb (a b : str) : bool :=
  match a, b with
  | [], [] => true
  | c :: a', d :: b' => (c =? d) && str_eqb a' b'
  | _, _ => false
  end.

(** The text of the file [file_name] once the effects [evs] have happened,
    where it held [before]: opening it for writing empties it and each
    write adds to its end. *)
Fixpoint file_content (file_name : str) (before : option str)
    (evs : list event) : option str :=
  match evs with
  | [] => before
  | Open f :: evs' =>
      file_content file_name (if str_eqb f file_name then Some [] else before)
        evs'
  | Write f text :: evs' =>
      file_content file_name
        (if str_eqb f file_name
         then option_map (fun content => content ++ text) before
         else before)
        evs'
  | _ :: evs' => file_content file_name before evs'
  end.

(** The error [open(file_name)] raises in a file system, [None] when the
    file opens. *)
Definition open_error (fs : str -> option file) (file_name : str)
    : option exn :=
  match fs file_name with
  | None => Some FileNotFoundError
  | Some (Unreadable e) => Some e
  | Some (Readable _) => None
  end.

(** The first error of a list of outcomes. *)
Fixpoint first_error (outcomes : list (option exn)) : option exn :=
  match outcomes with
  | [] => None
  | Some e :: _ => Some e
  | None :: outcomes' => first_error outcomes'
  end.

(** The dots [notify] prints for [n] items: one before every fifth item,
    the first item included. *)
Definition ticks (n : nat) : nat := Nat.div (n + 4) 5.

(** A second small project: every fragment file exists. *)
Definition example_SOURCE (file_name : str) : str :=
  lit "/repo/docs/source/" ++ file_name.

Definition example_fs_all (file_name : str) : option file :=
  if startswith (lit "/repo/docs/source/") file_name
  then Some (Readable (lit "Title" ++ [LF] ++ lit "Example::" ++ [LF]))
  else None.

(** A third one: the fragment files were written with carriage returns,
    and one path names a directory. *)
Definition example_fs_crlf (file_name : str) : option file :=
  if str_eqb file_name (lit "/repo/docs/source")
  then Some (Unreadable IsADirectoryError)
  else if startswith (lit "/repo/docs/source/") file_name
  then Some (Readable (lit "Usage" ++ [CR; LF] ++ lit "=====" ++ [CR]
                         ++ lit "Example::"))
  else None.

(* ------------------------------------------------------------------ *)
(** ** What the statements below measure *)

(** A line that ends with one of the terminators [isbreak]. *)
Definition terminated (isbreak : char -> bool) (l : str) : Prop :=
  exists body c, l = body ++ [c] /\ isbreak c = true.

(** The lines of a text: none is empty, and all but the last are ended. *)
Definition lines_ok (isbreak : char -> bool) (L : list str) : Prop :=
  Forall (fun l => l <> []) L /\ Forall (terminated isbreak) (removelast L).

(** One line: a body without terminator, then nothing, one terminator, or
    (where [crlf] pairs them) a carriage return and a line feed. *)
Definition one_line (isbreak : char -> bool) (crlf : bool) (l : str) : Prop :=
  exists body term,
    l = body ++ term
    /\ forallb (fun c => negb (isbreak c)) body = true
    /\ (term = []
        \/ (exists c, term = [c] /\ isbreak c = true)
        \/ (crlf = true /\ term = [CR; LF])).

(** No line ends with a carriage return whose line feed opens the next. *)
Fixpoint pairs_kept (L : list str) : Prop :=
  match L with
  | l1 :: L' =>
      match L' with
      | l2 :: _ =>
          (forall b r, l1 = b ++ [CR] -> l2 = LF :: r -> False)
          /\ pairs_kept L'
      | [] => True
      end
  | [] => True
  end.

(** The fragments as the generators [concatenate] receives: one generator
    per fragment, each yielding that fragment's lines. *)
Definition sources_of (fragments : list (list str)) : gen (gen str) :=
  of_list (map of_list fragments).

(** The items of the concatenated stream that come from no fragment. *)
Definition separators_inserted (fragments : list (list str)) : nat :=
  (List.length (items (concatenate (sources_of fragments)))
   - list_sum (map (@List.length str) fragments))%nat.

(** A small project to run the reader on: one fragment file exists, and a
    path below the project is made relative by dropping the project's. *)
Definition example_PROJECT : str := lit "/repo".

Definition example_script : str := lit "/repo/docs/github_readme.py".

Definition example_relpath (path start : str) : str :=
  if startswith (start ++ lit "/") path
  then skipn (List.length start + 1) path
  else path.

Definition example_fs (file_name : str) : option file :=
  if startswith file_name (lit "/repo/docs/source/usage.rst")
     && startswith (lit "/repo/docs/source/usage.rst") file_name
  then Some (Readable
               (lit "Usage" ++ [LF] ++ lit "=====" ++ [LF; LF] ++ lit "Example::"))
  else None.

(* ------------------------------------------------------------------ *)
(** ** Facts about the string operations *)

#[local] Arguments N.eqb : simpl never.
#[local] Arguments N.leb : simpl never.

Lemma startswith_app (p x : str) : startswith p (p ++ x) = true.
Proof.
  induction p as [|c p IH]; simpl; [reflexivity|].
  now rewrite N.eqb_refl, IH.
Qed.

Lemma startswith_inv (p l : str) :
  startswith p l = true -> exists x, l = p ++ x.
Proof.
  revert l; induction p as [|c p IH]; intros l H; simpl in *.
  - now exists l.
  - destruct l as [|d l]; [discriminate|].
    apply andb_true_iff in H as [Hc Hp].
    apply N.eqb_eq in Hc; subst d.
    destruct (IH _ Hp) as [x ->].
    now exists x.
Qed.


Lemma endswith_app (suffix x : str) : endswith suffix (x ++ suffix) = true.
Proof.
  unfold endswith; rewrite rev_app_distr; apply startswith_app.
Qed.


Lemma dropwhile_all_app (p : char -> bool) (s t : str) :
  forallb p s = true -> dropwhile p (s ++ t) = dropwhile p t.
Proof.
  induction s as [|c s IH]; simpl; [reflexivity|].
  intros H; apply andb_true_iff in H as [-> Hs]; auto.
Qed.

Lemma takewhile_all_app (p : char -> bool) (s t : str) :
  forallb p s = true -> takewhile p (s ++ t) = s ++ takewhile p t.
Proof.
  induction s as [|c s IH]; simpl; [reflexivity|].
  intros H; apply andb_true_iff in H as [-> Hs]; now rewrite IH.
Qed.

(** A character that stays stops the removal: what precedes it is kept. *)
Lemma dropwhile_stops (p : char -> bool) (s : str) (c : char) (t : str) :
  p c = false -> dropwhile p (s ++ c :: t) = dropwhile p s ++ c :: t.
Proof.
  intros Hc; induction s as [|d s IH]; simpl.
  - now rewrite Hc.
  - destruct (p d); auto.
Qed.

Lemma rstrip_cons (c : char) (s : str) :
  isspace c = false -> rstrip (c :: s) = c :: rstrip s.
Proof.
  intros Hc; unfold rstrip; simpl.
  rewrite dropwhile_stops by assumption.
  now rewrite rev_app_distr.
Qed.

Lemma forallb_rev {A} (p : A -> bool) (l : list A) :
  forallb p (rev l) = forallb p l.
Proof.
  induction l as [|a l IH]; simpl; [reflexivity|].
  rewrite forallb_app, IH; simpl.
  now rewrite andb_true_r, andb_comm.
Qed.

(** The text of a line that opens with two characters that are not
    whitespace still opens with them once it is stripped. *)
Lemma strip_keeps_opening (a b : char) (x : str) :
  isspace a = false -> isspace b = false ->
  startswith [a; b] (strip (a :: b :: x)) = true.
Proof.
  intros Ha Hb; unfold strip, lstrip; simpl.
  rewrite Ha, !rstrip_cons by assumption.
  simpl; now rewrite !N.eqb_refl.
Qed.

(** A line is one [old] longer than [body]: only that last occurrence is
    replaced when [body] holds no line feed. *)
Lemma replace_shorthand (body : str) :
  existsb (N.eqb LF) body = false ->
  replace (lit "::" ++ [LF]) [LF] (body ++ lit "::" ++ [LF]) = body ++ [LF].
Proof.
  unfold replace.
  change (lit "::" ++ [LF]) with [58; 58; LF].
  induction body as [|c body IH]; intros H; [reflexivity|].
  simpl in H; apply orb_false_iff in H as [Hc Hbody].
  cbn [app replace_from].
  replace (startswith [58; 58; LF] (c :: body ++ [58; 58; LF])) with false.
  - now rewrite IH.
  - symmetry.
    destruct body as [|d [|e body]]; simpl in *.
    + now rewrite !andb_false_r.
    + now rewrite !andb_false_r.
    + apply orb_false_iff in Hbody as [_ Hbody].
      apply orb_false_iff in Hbody as [He _].
      unfold LF in *; rewrite N.eqb_sym, He.
      now rewrite !andb_false_r.
Qed.

(** The last word of a text and what is left of it. *)
Lemma rsplit1_last_word (pre : str) (sp : char) (word trail : str) :
  isspace sp = true ->
  word <> [] ->
  forallb (fun c => negb (isspace c)) word = true ->
  forallb isspace trail = true ->
  rstrip pre <> [] ->
  rsplit1 (pre ++ sp :: word ++ trail) = [rstrip pre; word].
Proof.
  intros Hsp Hne Hword Htrail Hpre.
  unfold rsplit1.
  replace (rev (pre ++ sp :: word ++ trail))
    with (rev trail ++ rev word ++ sp :: rev pre)
    by (rewrite rev_app_distr; simpl; rewrite rev_app_distr, <- !app_assoc;
        reflexivity).
  rewrite dropwhile_all_app by now rewrite forallb_rev.
  assert (Hrev : forallb (fun c => negb (isspace c)) (rev word) = true)
    by now rewrite forallb_rev.
  destruct (rev word) as [|c w] eqn:E.
  { apply (f_equal (@rev char)) in E; rewrite rev_involutive in E.
    now destruct Hne. }
  rewrite <- E in *.
  assert (Hdrop : dropwhile (fun c => negb (isspace c)) (rev word ++ sp :: rev pre)
                  = sp :: rev pre).
  { rewrite dropwhile_all_app by assumption. simpl. now rewrite Hsp. }
  assert (Htake : takewhile (fun c => negb (isspace c)) (rev word ++ sp :: rev pre)
                  = rev word).
  { rewrite takewhile_all_app by assumption. simpl. rewrite Hsp; simpl.
    apply app_nil_r. }
  assert (Hkeep : dropwhile isspace (rev word ++ sp :: rev pre)
                  = rev word ++ sp :: rev pre).
  { rewrite E in *. simpl in Hrev |- *.
    apply andb_true_iff in Hrev as [Hc _].
    now destruct (isspace c). }
  rewrite Hkeep, Hdrop, Htake.
  rewrite E at 1; cbn [app].
  replace (dropwhile isspace (sp :: rev pre)) with (dropwhile isspace (rev pre))
    by (simpl; now rewrite Hsp).
  unfold rstrip in Hpre.
  destruct (dropwhile isspace (rev pre)) as [|d r] eqn:R.
  { now destruct Hpre. }
  unfold rstrip; now rewrite R, rev_involutive.
Qed.

Section Lines.
Variable isbreak : char -> bool.
Variable crlf : bool.
Hypothesis isbreak_LF : isbreak LF = true.

Lemma lines_ok_cons (l : str) (L : list str) :
  terminated isbreak l -> lines_ok isbreak L -> lines_ok isbreak (l :: L).
Proof.
  intros [body [c [-> Hc]]] [Hne Hterm]; split.
  - constructor; [now destruct body|assumption].
  - destruct L as [|l' L]; [constructor|].
    change (removelast ((body ++ [c]) :: l' :: L))
      with ((body ++ [c]) :: removelast (l' :: L)).
    constructor; [now exists body, c|assumption].
Qed.

Lemma lines_keepends_spec (n : nat) :
  forall (s cur : str), (List.length s <= n)%nat ->
    List.concat (lines_keepends isbreak crlf cur s) = cur ++ s
    /\ lines_ok isbreak (lines_keepends isbreak crlf cur s).
Proof.
  induction n as [|n IH]; intros s cur Hlen.
  - destruct s; [|simpl in Hlen; lia].
    destruct cur; simpl; (split; [now rewrite ?app_nil_r|]);
      split; repeat constructor; discriminate.
  - destruct s as [|c s].
    { destruct cur; simpl; (split; [now rewrite ?app_nil_r|]);
        split; repeat constructor; discriminate. }
    simpl in Hlen.
    cbn [lines_keepends].
    destruct (isbreak c) eqn:Hc.
    + destruct s as [|d s].
      * split; [simpl; now rewrite app_nil_r|].
        split; [|constructor].
        constructor; [now destruct cur|constructor].
      * destruct (crlf && (c =? CR) && (d =? LF)) eqn:Hpair.
        -- apply andb_true_iff in Hpair as [_ Hd].
           apply N.eqb_eq in Hd; subst d.
           destruct (IH s [] ltac:(simpl in Hlen; lia)) as [Hcat Hok].
           split.
           ++ cbn [List.concat]. rewrite Hcat, <- app_assoc. reflexivity.
           ++ apply lines_ok_cons; [|assumption].
              exists (cur ++ [c]), LF.
              now rewrite <- app_assoc.
        -- destruct (IH (d :: s) [] ltac:(simpl in Hlen |- *; lia))
             as [Hcat Hok].
           split.
           ++ cbn [List.concat]. rewrite Hcat, <- app_assoc. reflexivity.
           ++ apply lines_ok_cons; [|assumption].
              now exists cur, c.
    + destruct (IH s (cur ++ [c]) ltac:(lia)) as [Hcat Hok].
      split; [|assumption].
      now rewrite Hcat, <- app_assoc.
Qed.
Lemma nobreak_snoc (cur : str) (c : char) :
  forallb (fun c => negb (isbreak c)) cur = true ->
  isbreak c = false ->
  forallb (fun c => negb (isbreak c)) (cur ++ [c]) = true.
Proof.
  intros Hcur Hc. rewrite forallb_app, Hcur. simpl. now rewrite Hc.
Qed.

(** Every line is a body without terminator and then its terminator. *)
Lemma lines_keepends_one_line (n : nat) :
  forall (s cur : str), (List.length s <= n)%nat ->
    forallb (fun c => negb (isbreak c)) cur = true ->
    Forall (one_line isbreak crlf) (lines_keepends isbreak crlf cur s).
Proof.
  induction n as [|n IH]; intros s cur Hlen Hcur.
  - destruct s; [|simpl in Hlen; lia].
    destruct cur; simpl; constructor; [|constructor].
    exists (c :: cur), []. rewrite app_nil_r. auto.
  - destruct s as [|c s].
    { destruct cur as [|c0 cur]; simpl; constructor; [|constructor].
      exists (c0 :: cur), []. rewrite app_nil_r. auto. }
    simpl in Hlen. cbn [lines_keepends].
    destruct (isbreak c) eqn:Hc.
    + destruct s as [|d s].
      * constructor; [|constructor].
        exists cur, [c]. repeat split; eauto.
      * destruct (crlf && (c =? CR) && (d =? LF)) eqn:Hpair.
        -- apply andb_true_iff in Hpair as [Hpair Hd].
           apply andb_true_iff in Hpair as [Hcrlf Hcr].
           apply N.eqb_eq in Hd, Hcr; subst c d.
           constructor.
           ++ exists cur, [CR; LF]. repeat split; auto.
           ++ apply IH; [simpl in Hlen; lia|reflexivity].
        -- constructor.
           ++ exists cur, [c]. repeat split; eauto.
           ++ apply IH; [simpl in Hlen |- *; lia|reflexivity].
    + apply IH; [lia|now apply nobreak_snoc].
Qed.

(** The first line opens as the text read so far and the rest open. *)
Lemma lines_keepends_head (s cur : str) :
  cur ++ s <> [] ->
  exists l L,
    lines_keepends isbreak crlf cur s = l :: L
    /\ hd_error l = hd_error (cur ++ s).
Proof.
  revert cur; induction s as [|c s IH]; intros cur Hne.
  - rewrite app_nil_r in *. destruct cur as [|c0 cur]; [now destruct Hne|].
    now exists (c0 :: cur), [].
  - cbn [lines_keepends].
    destruct (isbreak c).
    + destruct s as [|d s].
      * now exists (cur ++ [c]), [].
      * destruct (crlf && (c =? CR) && (d =? LF)); eexists; eexists;
          (split; [reflexivity|]); now destruct cur.
    + destruct (IH (cur ++ [c])) as [l [L [E H]]].
      { rewrite <- app_assoc. now destruct cur. }
      exists l, L. split; [exact E|].
      now rewrite H, <- app_assoc.
Qed.

(** Where carriage return and line feed are paired, no pair is cut. *)
Lemma lines_keepends_pairs (n : nat) :
  crlf = true ->
  forall (s cur : str), (List.length s <= n)%nat ->
    pairs_kept (lines_keepends isbreak crlf cur s).
Proof.
  intros Hcrlf.
  induction n as [|n IH]; intros s cur Hlen.
  - destruct s; [|simpl in Hlen; lia]. now destruct cur.
  - destruct s as [|c s]; [now destruct cur|].
    simpl in Hlen. cbn [lines_keepends].
    destruct (isbreak c) eqn:Hc.
    + destruct s as [|d s]; [exact I|].
      destruct (crlf && (c =? CR) && (d =? LF)) eqn:Hpair.
      * apply andb_true_iff in Hpair as [_ Hd].
        apply N.eqb_eq in Hd; subst d.
        pose proof (IH s [] ltac:(simpl in Hlen; lia)) as Hrest.
        cbn [pairs_kept].
        destruct (lines_keepends isbreak crlf [] s) as [|l2 L]; [exact I|].
        split; [|exact Hrest].
        intros b r Hb _.
        change (cur ++ [c; LF]) with (cur ++ [c] ++ [LF]) in Hb.
        rewrite app_assoc in Hb.
        apply app_inj_tail in Hb as [_ Hb]. discriminate Hb.
      * pose proof (IH (d :: s) [] ltac:(simpl in Hlen |- *; lia)) as Hrest.
        destruct (lines_keepends_head (d :: s) []) as [l2 [L [E Hhead]]];
          [discriminate|].
        cbn [pairs_kept]. rewrite E in *.
        split; [|exact Hrest].
        intros b r Hb Hl2.
        apply app_inj_tail in Hb as [_ Hb]. subst c l2.
        cbn in Hhead. injection Hhead as Hd. subst d.
        rewrite Hcrlf in Hpair. discriminate Hpair.
    + apply IH; lia.
Qed.
End Lines.

Lemma splitlines_spec (text : str) :
  List.concat (splitlines text) = text /\ lines_ok islinebreak (splitlines text).
Proof.
  exact (lines_keepends_spec islinebreak true eq_refl _ text [] (le_n _)).
Qed.

Lemma readlines_spec (text : str) :
  List.concat (readlines text) = text
  /\ lines_ok (fun c => c =? LF) (readlines text).
Proof.
  exact (lines_keepends_spec (fun c => c =? LF) false eq_refl _ text [] (le_n _)).
Qed.

Lemma splitlines_lines (text : str) :
  Forall (one_line islinebreak true) (splitlines text)
  /\ pairs_kept (splitlines text).
Proof.
  split.
  - exact (lines_keepends_one_line islinebreak true _ text [] (le_n _) eq_refl).
  - exact (lines_keepends_pairs islinebreak true _ eq_refl text [] (le_n _)).
Qed.

Lemma readlines_lines (text : str) :
  Forall (one_line (fun c => c =? LF) false) (readlines text).
Proof.
  exact (lines_keepends_one_line (fun c => c =? LF) false _ text [] (le_n _)
           eq_refl).
Qed.

Lemma universal_newlines_no_CR (n : nat) :
  forall raw, (List.length raw <= n)%nat ->
    existsb (N.eqb CR) (universal_newlines raw) = false.
Proof.
  induction n as [|n IH]; intros raw Hlen.
  - destruct raw; [reflexivity|simpl in Hlen; lia].
  - destruct raw as [|c raw]; [reflexivity|].
    simpl in Hlen. cbn [universal_newlines].
    destruct (c =? CR) eqn:Hc.
    + cbn [existsb]. change (CR =? LF) with false. cbn [orb].
      destruct raw as [|d raw]; [reflexivity|].
      destruct (d =? LF); apply IH; simpl in Hlen |- *; lia.
    + cbn [existsb]. rewrite N.eqb_sym, Hc. apply IH. lia.
Qed.

Lemma universal_newlines_plain (raw : str) :
  existsb (N.eqb CR) raw = false -> universal_newlines raw = raw.
Proof.
  induction raw as [|c raw IH]; intros H; [reflexivity|].
  cbn [existsb] in H. apply orb_false_iff in H as [Hc Hraw].
  cbn [universal_newlines]. rewrite N.eqb_sym, Hc. now rewrite IH.
Qed.

(* ------------------------------------------------------------------ *)
(** ** Facts about generators *)

Lemma yield_from_Return {A} (g : gen A) : yield_from g Return = g.
Proof.
  induction g as [|a g IH|e]; simpl; [reflexivity| |reflexivity].
  now rewrite IH.
Qed.

Lemma yield_from_of_list {A} (l l' : list A) :
  yield_from (of_list l) (of_list l') = of_list (l ++ l').
Proof.
  induction l as [|a l IH]; simpl; [reflexivity|].
  now rewrite IH.
Qed.

Lemma items_of_list {A} (l : list A) : items (of_list l) = l.
Proof.
  induction l as [|a l IH]; simpl; [reflexivity|].
  now rewrite IH.
Qed.


(* ------------------------------------------------------------------ *)
(** ** Facts about the loop of [rule__code_blocks] *)

Lemma header_prefix : slice_to_minus 5 FILE_HEADER = lit ".. Source defined in".
Proof. reflexivity. Qed.

Lemma percent_FILE_HEADER (path : str) :
  percent FILE_HEADER path = lit ".. Source defined in " ++ path ++ [LF; LF].
Proof. reflexivity. Qed.

Lemma percent_code_block (language : str) :
  percent ([LF] ++ lit ".. code-block:: %s" ++ [LF]) language
  = [LF] ++ lit ".. code-block:: " ++ language ++ [LF].
Proof. reflexivity. Qed.

(** A line that opens with two dots still does once it is stripped. *)
Lemma dots_stay (p line : str) :
  startswith (lit ".." ++ p) line = true ->
  startswith (lit "..") (strip line) = true.
Proof.
  intros H; apply startswith_inv in H as [x ->].
  now apply strip_keeps_opening.
Qed.

Lemma is_highlight_dots (line : str) :
  is_highlight line = true -> startswith (lit "..") (strip line) = true.
Proof. apply (dots_stay (lit " highlight:: ")). Qed.

Lemma is_new_file_dots (line : str) :
  is_new_file line = true -> startswith (lit "..") (strip line) = true.
Proof. apply (dots_stay (lit " Source defined in")). Qed.

Lemma is_new_file_not_highlight (line : str) :
  is_new_file line = true -> is_highlight line = false.
Proof.
  intros H; apply startswith_inv in H as [x ->]. reflexivity.
Qed.

Lemma no_dots_plain (line : str) :
  startswith (lit "..") (strip line) = false ->
  is_highlight line = false /\ is_new_file line = false.
Proof.
  intros H; split.
  - destruct (is_highlight line) eqn:E; [|reflexivity].
    apply is_highlight_dots in E; congruence.
  - destruct (is_new_file line) eqn:E; [|reflexivity].
    apply is_new_file_dots in E; congruence.
Qed.

(** One line of the loop, case by case. *)
Lemma loop_highlight (k line language word : str) (lines : gen str) :
  is_highlight line = true ->
  rsplit1 line = [word; language] ->
  code_blocks_loop k (Yield line lines) = code_blocks_loop language lines.
Proof.
  intros H R; cbn [code_blocks_loop]. now rewrite H, R.
Qed.

Lemma shorthand_not_directive (line : str) :
  is_code_block_shorthand line = true ->
  is_highlight line = false /\ is_new_file line = false.
Proof.
  unfold is_code_block_shorthand; intros H.
  apply andb_true_iff in H as [_ H]. apply negb_true_iff in H.
  now apply no_dots_plain.
Qed.

Lemma loop_shorthand (k line : str) (lines : gen str) :
  is_code_block_shorthand line = true ->
  code_blocks_loop k (Yield line lines)
  = Yield (replace (lit "::" ++ [LF]) [LF] line)
      (Yield ([LF] ++ lit ".. code-block:: " ++ k ++ [LF])
         (code_blocks_loop k lines)).
Proof.
  intros S. destruct (shorthand_not_directive _ S) as [H N].
  cbn [code_blocks_loop]. rewrite H, S, N.
  now rewrite percent_code_block.
Qed.

Lemma loop_plain (k line : str) (lines : gen str) :
  is_highlight line = false ->
  is_code_block_shorthand line = false ->
  code_blocks_loop k (Yield line lines)
  = Yield line
      (code_blocks_loop (if is_new_file line then lit "python" else k) lines).
Proof.
  intros H S; cbn [code_blocks_loop]. now rewrite H, S.
Qed.

(** A shorthand line: a body without line feed, [::] and the line feed,
    whose stripped text does not open with two dots. *)
Lemma loop_shorthand_line (k body : str) (lines : gen str) :
  existsb (N.eqb LF) body = false ->
  startswith (lit "..") (strip (body ++ lit "::" ++ [LF])) = false ->
  code_blocks_loop k (Yield (body ++ lit "::" ++ [LF]) lines)
  = Yield (body ++ [LF])
      (Yield ([LF] ++ lit ".. code-block:: " ++ k ++ [LF])
         (code_blocks_loop k lines)).
Proof.
  intros Hbody Hdots.
  rewrite loop_shorthand.
  - now rewrite replace_shorthand.
  - unfold is_code_block_shorthand.
    rewrite Hdots, endswith_app. reflexivity.
Qed.

(** A header line is passed on and sets the language back. *)
Lemma loop_header (k line : str) (lines : gen str) :
  is_new_file line = true ->
  code_blocks_loop k (Yield line lines)
  = Yield line (code_blocks_loop (lit "python") lines).
Proof.
  intros H.
  rewrite loop_plain, H; [reflexivity| |].
  - now apply is_new_file_not_highlight.
  - unfold is_code_block_shorthand.
    rewrite (is_new_file_dots _ H). apply andb_false_r.
Qed.

(** A highlight directive that names a language. *)
Lemma rsplit1_highlight (language trail : str) :
  language <> [] ->
  forallb (fun c => negb (isspace c)) language = true ->
  forallb isspace trail = true ->
  rsplit1 (lit ".. highlight:: " ++ language ++ trail)
  = [lit ".. highlight::"; language].
Proof.
  intros Hne Hword Htrail.
  exact (rsplit1_last_word (lit ".. highlight::") 0x20 language trail
           eq_refl Hne Hword Htrail ltac:(discriminate)).
Qed.

(** A highlight directive that names none: its own last word is taken. *)
Lemma rsplit1_highlight_bare (trail : str) :
  forallb isspace trail = true ->
  rsplit1 (lit ".. highlight:: " ++ trail) = [lit ".."; lit "highlight::"].
Proof.
  intros Htrail.
  exact (rsplit1_last_word (lit "..") 0x20 (lit "highlight::") (0x20 :: trail)
           eq_refl ltac:(discriminate) eq_refl Htrail ltac:(discriminate)).
Qed.

(* ------------------------------------------------------------------ *)
(** ** The concatenator *)

Lemma concatenate_sources (fragments : list (list str)) :
  concatenate (sources_of fragments)
  = of_list (flat_map (fun lines => lines ++ [SEPARATOR]) fragments).
Proof.
  unfold sources_of.
  induction fragments as [|lines fragments IH]; [reflexivity|].
  cbn [map of_list concatenate flat_map].
  rewrite IH.
  change (Yield SEPARATOR (of_list ?l)) with (of_list (SEPARATOR :: l)).
  rewrite yield_from_of_list, <- app_assoc. reflexivity.
Qed.

Lemma length_separated (fragments : list (list str)) :
  List.length (flat_map (fun lines => lines ++ [SEPARATOR]) fragments)
  = (list_sum (map (@List.length str) fragments) + List.length fragments)%nat.
Proof.
  induction fragments as [|lines fragments IH]; [reflexivity|].
  cbn [flat_map map list_sum List.length].
  rewrite !length_app, IH. simpl. lia.
Qed.

(** C1, as the code has it: the concatenated stream is every fragment's
    lines in order, each fragment followed by one separator item (the
    string of two line feeds), the last fragment included.  [N] fragments
    give [N] separators, and no fragment gives the empty stream. *)
Theorem concatenate_separator_after_each (fragments : list (list str)) :
  concatenate (sources_of fragments)
  = of_list (flat_map (fun lines => lines ++ [SEPARATOR]) fragments)
  /\ separators_inserted fragments = List.length fragments
  /\ concatenate (sources_of []) = Return.
Proof.
  split; [apply concatenate_sources|split; [|reflexivity]].
  unfold separators_inserted.
  rewrite concatenate_sources, items_of_list, length_separated. lia.
Qed.

(** C1 fails as stated: one fragment of one line gives one separator,
    where [N - 1] is none. *)
Lemma concatenate_single_fragment_separator :
  items (concatenate (sources_of [[lit "a" ++ [LF]]]))
  = [lit "a" ++ [LF]; SEPARATOR]
  /\ separators_inserted [[lit "a" ++ [LF]]] = 1%nat
  /\ separators_inserted [[lit "a" ++ [LF]]]
     <> (List.length [[lit "a" ++ [LF]]] - 1)%nat.
Proof.
  repeat split; [reflexivity..|discriminate].
Qed.

(* ------------------------------------------------------------------ *)
(** ** The directive-stripping stage *)

Lemma other_rules_yield_from (before : list str) (lines : gen str) :
  rule__other_rules (yield_from (of_list before) lines)
  = yield_from (rule__other_rules (of_list before)) (rule__other_rules lines).
Proof.
  induction before as [|line before IH]; [reflexivity|].
  cbn [of_list yield_from rule__other_rules].
  destruct (startswith (lit ":orphan:") line); cbn [yield_from]; now rewrite IH.
Qed.

(** C8: the stage drops exactly the lines that start with [:orphan:] and
    passes the others on unchanged and in order; it ends as its input ends;
    and what it does with a line does not depend on the lines before it. *)
Theorem rule__other_rules_drops_orphan (lines : gen str) :
  items (rule__other_rules lines)
  = filter (fun line => negb (startswith (lit ":orphan:") line)) (items lines)
  /\ ending (rule__other_rules lines) = ending lines
  /\ forall before : list str,
       rule__other_rules (yield_from (of_list before) lines)
       = yield_from (rule__other_rules (of_list before))
           (rule__other_rules lines).
Proof.
  split; [|split; [|intros; apply other_rules_yield_from]].
  - induction lines as [|line lines IH|e]; [reflexivity| |reflexivity].
    cbn [rule__other_rules items filter].
    destruct (startswith (lit ":orphan:") line); cbn [negb items];
      now rewrite IH.
  - induction lines as [|line lines IH|e]; [reflexivity| |reflexivity].
    cbn [rule__other_rules ending].
    now destruct (startswith (lit ":orphan:") line).
Qed.

(* ------------------------------------------------------------------ *)
(** ** The pipeline composer *)

Lemma reduce_apply {A} (steps : list (@step A)) (initial : option (gen A)) :
  reduce apply steps initial
  = fold_left (fun result (s : step) => Some (s result)) steps initial.
Proof.
  revert initial; induction steps as [|s steps IH]; intros initial;
    [reflexivity|].
  cbn [reduce fold_left]. rewrite IH.
  unfold apply. now rewrite yield_from_Return.
Qed.

Lemma fold_left_feed {A} (steps : list (@step A)) (initial : option (gen A)) :
  fold_left (fun result (s : step) => Some (s result)) steps initial
  = fold_right (fun (s : step) feed result => feed (Some (s result)))
      (fun result => result) steps initial.
Proof.
  revert initial; induction steps as [|s steps IH]; intros initial;
    [reflexivity|].
  cbn [fold_left fold_right]. apply IH.
Qed.

(** C9: the stream of [pipeline] is what the last step makes of what the
    step before it made, and so on down to the first step called with the
    initial value: the steps folded from the left, which is their
    composition with the first step innermost. *)
Theorem pipeline_feeds_left_to_right {A} (steps : list (@step A))
    (initial : option (gen A)) :
  pipeline steps initial
  = iter (fold_left (fun result (s : step) => Some (s result)) steps initial)
  /\ pipeline steps initial
     = iter (fold_right (fun (s : step) feed result => feed (Some (s result)))
               (fun result => result) steps initial).
Proof.
  assert (H : pipeline steps initial
              = iter (fold_left (fun result (s : step) => Some (s result))
                        steps initial)).
  { unfold pipeline. now rewrite yield_from_Return, reduce_apply. }
  split; [exact H|].
  now rewrite H, fold_left_feed.
Qed.

(** The two rules of [sanitize], in their order. *)
Lemma sanitize_rules (lines : gen str) :
  sanitize lines = rule__other_rules (rule__code_blocks lines).
Proof.
  unfold sanitize, pipeline.
  now rewrite !yield_from_Return, reduce_apply.
Qed.

(* ------------------------------------------------------------------ *)
(** ** The shorthand-expansion stage *)

(** The lines of a text that opens with a line without inner line feed. *)
Lemma readlines_first_line (body rest cur : str) :
  existsb (N.eqb LF) body = false ->
  lines_keepends (fun c => c =? LF) false cur (body ++ LF :: rest)
  = (cur ++ body ++ [LF]) :: lines_keepends (fun c => c =? LF) false [] rest.
Proof.
  revert cur; induction body as [|c body IH]; intros cur H.
  - now destruct rest.
  - simpl in H; apply orb_false_iff in H as [Hc Hbody].
    cbn [app lines_keepends].
    rewrite N.eqb_sym, Hc, IH by assumption.
    now rewrite <- app_assoc.
Qed.

(** Lines before a header line do not reach past it: the header sets the
    language whatever they left. *)
Lemma loop_before_reset (before : list str) (lines result : gen str) :
  (forall k, code_blocks_loop k lines = result) ->
  forall k,
    code_blocks_loop k (yield_from (of_list before) lines)
    = yield_from (code_blocks_loop k (of_list before)) result.
Proof.
  intros Hreset.
  induction before as [|line before IH]; intros k; [apply Hreset|].
  cbn [of_list yield_from code_blocks_loop].
  destruct (is_highlight line).
  - destruct (rsplit1 line) as [|? [|? [|? ?]]]; auto.
  - destruct (is_code_block_shorthand line); cbn [yield_from];
      now rewrite IH.
Qed.

(** Lines without a highlight directive leave the default language. *)
Lemma loop_default_kept (between : list str) (lines : gen str) :
  forallb (fun line => negb (is_highlight line)) between = true ->
  code_blocks_loop (lit "python") (yield_from (of_list between) lines)
  = yield_from (code_blocks_loop (lit "python") (of_list between))
      (code_blocks_loop (lit "python") lines).
Proof.
  induction between as [|line between IH]; intros H; [reflexivity|].
  simpl in H; apply andb_true_iff in H as [Hline Hrest].
  apply negb_true_iff in Hline.
  cbn [of_list yield_from code_blocks_loop]. rewrite Hline.
  replace (if is_new_file line then lit "python" else lit "python")
    with (lit "python") by now destruct (is_new_file line).
  destruct (is_code_block_shorthand line); cbn [yield_from];
    now rewrite IH.
Qed.

(** C2, as the code has it: under the default language a shorthand line
    (a body, [::] and the line feed, not a directive once stripped) gives
    two items, the line without its [::] and one string that holds the
    blank line and the [code-block] directive for [python]; the line
    itself is not passed on.  Read as text the two items are the three
    lines of the claim. *)
Theorem shorthand_expands_with_default (body : str) (lines : gen str) :
  existsb (N.eqb LF) body = false ->
  startswith (lit "..") (strip (body ++ lit "::" ++ [LF])) = false ->
  rule__code_blocks (Yield (body ++ lit "::" ++ [LF]) lines)
  = Yield (body ++ [LF])
      (Yield ([LF] ++ lit ".. code-block:: python" ++ [LF])
         (code_blocks_loop (lit "python") lines))
  /\ readlines ((body ++ [LF]) ++ [LF] ++ lit ".. code-block:: python" ++ [LF])
     = [body ++ [LF]; [LF]; lit ".. code-block:: python" ++ [LF]].
Proof.
  intros Hbody Hdots; split.
  - unfold rule__code_blocks. now rewrite loop_shorthand_line.
  - unfold readlines. rewrite <- app_assoc. cbn [app].
    now rewrite readlines_first_line.
Qed.

Lemma shorthand_expands_with_default_witness :
  rule__code_blocks (Yield (lit "Foo" ++ lit "::" ++ [LF]) Return)
  = Yield (lit "Foo" ++ [LF])
      (Yield ([LF] ++ lit ".. code-block:: python" ++ [LF])
         (code_blocks_loop (lit "python") Return))
  /\ readlines ((lit "Foo" ++ [LF]) ++ [LF] ++ lit ".. code-block:: python" ++ [LF])
     = [lit "Foo" ++ [LF]; [LF]; lit ".. code-block:: python" ++ [LF]].
Proof.
  apply (shorthand_expands_with_default (lit "Foo") Return); reflexivity.
Defined.

(** C2 fails as stated: the line [Foo::] gives two items, not the three
    lines one by one. *)
Lemma shorthand_gives_two_items :
  items (rule__code_blocks (of_list [lit "Foo::" ++ [LF]]))
  = [lit "Foo" ++ [LF]; [LF] ++ lit ".. code-block:: python" ++ [LF]]
  /\ items (rule__code_blocks (of_list [lit "Foo::" ++ [LF]]))
     <> [lit "Foo" ++ [LF]; [LF]; lit ".. code-block:: python" ++ [LF]].
Proof.
  split; [reflexivity|discriminate].
Qed.

(** C3: a highlight directive that names a language (one word after the
    prefix, then the end of the line) gives no output, and the shorthand
    line after it is expanded with that language, whatever the language
    was before. *)
Theorem highlight_sets_language (k language trail line : str)
    (lines : gen str) :
  language <> [] ->
  forallb (fun c => negb (isspace c)) language = true ->
  forallb isspace trail = true ->
  is_code_block_shorthand line = true ->
  code_blocks_loop k
    (Yield (lit ".. highlight:: " ++ language ++ trail) (Yield line lines))
  = code_blocks_loop language (Yield line lines)
  /\ code_blocks_loop k
       (Yield (lit ".. highlight:: " ++ language ++ trail) (Yield line lines))
     = Yield (replace (lit "::" ++ [LF]) [LF] line)
         (Yield ([LF] ++ lit ".. code-block:: " ++ language ++ [LF])
            (code_blocks_loop language lines)).
Proof.
  intros Hne Hword Htrail Hline.
  assert (Hstep : code_blocks_loop k
                    (Yield (lit ".. highlight:: " ++ language ++ trail)
                       (Yield line lines))
                  = code_blocks_loop language (Yield line lines)).
  { apply loop_highlight with (word := lit ".. highlight::").
    - apply startswith_app.
    - now apply rsplit1_highlight. }
  split; [exact Hstep|].
  now rewrite Hstep, loop_shorthand.
Qed.

Lemma highlight_sets_language_witness :
  code_blocks_loop (lit "python")
    (Yield (lit ".. highlight:: " ++ lit "rust" ++ [LF])
       (Yield (lit "Bar::" ++ [LF]) Return))
  = code_blocks_loop (lit "rust") (Yield (lit "Bar::" ++ [LF]) Return)
  /\ code_blocks_loop (lit "python")
       (Yield (lit ".. highlight:: " ++ lit "rust" ++ [LF])
          (Yield (lit "Bar::" ++ [LF]) Return))
     = Yield (lit "Bar" ++ [LF])
         (Yield ([LF] ++ lit ".. code-block:: " ++ lit "rust" ++ [LF]) Return).
Proof.
  apply (highlight_sets_language (lit "python") (lit "rust") [LF]
           (lit "Bar::" ++ [LF]) Return);
    [discriminate|reflexivity..].
Defined.

(** C4: the header line of a new fragment sets the language back.  In the
    first fragment a highlight directive names a language and the
    shorthand line after it is expanded with that language; whatever
    follows in that fragment, the header line of the second fragment is
    passed on unchanged, and a shorthand line of the second fragment that
    no highlight directive precedes is expanded with [python]. *)
Theorem header_resets_language (language trail h1 short1 h2 short2 : str)
    (mid between : list str) (lines : gen str) :
  language <> [] ->
  forallb (fun c => negb (isspace c)) language = true ->
  forallb isspace trail = true ->
  is_new_file h1 = true ->
  is_new_file h2 = true ->
  is_code_block_shorthand short1 = true ->
  is_code_block_shorthand short2 = true ->
  forallb (fun line => negb (is_highlight line)) between = true ->
  rule__code_blocks
    (Yield h1
       (Yield (lit ".. highlight:: " ++ language ++ trail)
          (Yield short1
             (yield_from (of_list mid)
                (Yield h2
                   (yield_from (of_list between) (Yield short2 lines)))))))
  = Yield h1
      (Yield (replace (lit "::" ++ [LF]) [LF] short1)
         (Yield ([LF] ++ lit ".. code-block:: " ++ language ++ [LF])
            (yield_from (code_blocks_loop language (of_list mid))
               (Yield h2
                  (yield_from (code_blocks_loop (lit "python") (of_list between))
                     (Yield (replace (lit "::" ++ [LF]) [LF] short2)
                        (Yield ([LF] ++ lit ".. code-block:: python" ++ [LF])
                           (code_blocks_loop (lit "python") lines)))))))).
Proof.
  intros Hne Hword Htrail Hh1 Hh2 Hs1 Hs2 Hbetween.
  unfold rule__code_blocks.
  rewrite loop_header by assumption.
  rewrite loop_highlight with (language := language) (word := lit ".. highlight::");
    [|apply startswith_app|now apply rsplit1_highlight].
  rewrite loop_shorthand by assumption.
  do 3 f_equal.
  apply loop_before_reset; intros k.
  rewrite loop_header by assumption.
  now rewrite loop_default_kept, loop_shorthand.
Qed.

Lemma header_resets_language_witness :
  rule__code_blocks
    (Yield (lit ".. Source defined in docs/source/installation.rst" ++ [LF; LF])
       (Yield (lit ".. highlight:: " ++ lit "bash" ++ [LF])
          (Yield (lit "Install::" ++ [LF])
             (yield_from (of_list [lit "    pip install it" ++ [LF]; SEPARATOR])
                (Yield (lit ".. Source defined in docs/source/usage.rst" ++ [LF; LF])
                   (yield_from (of_list [lit "Usage" ++ [LF]])
                      (Yield (lit "Example::" ++ [LF]) Return)))))))
  = of_list
      [lit ".. Source defined in docs/source/installation.rst" ++ [LF; LF];
       lit "Install" ++ [LF];
       [LF] ++ lit ".. code-block:: bash" ++ [LF];
       lit "    pip install it" ++ [LF];
       SEPARATOR;
       lit ".. Source defined in docs/source/usage.rst" ++ [LF; LF];
       lit "Usage" ++ [LF];
       lit "Example" ++ [LF];
       [LF] ++ lit ".. code-block:: python" ++ [LF]].
Proof.
  apply (header_resets_language (lit "bash") [LF]
           (lit ".. Source defined in docs/source/installation.rst" ++ [LF; LF])
           (lit "Install::" ++ [LF])
           (lit ".. Source defined in docs/source/usage.rst" ++ [LF; LF])
           (lit "Example::" ++ [LF])
           [lit "    pip install it" ++ [LF]; SEPARATOR]
           [lit "Usage" ++ [LF]] Return);
    [discriminate|reflexivity..].
Defined.

(** C6, where the code goes wrong: a highlight directive that names no
    language (the prefix and then nothing but whitespace) is neither left
    without effect nor refused.  The line is dropped, and the last word
    found on it, the directive's own [highlight::], is taken for the
    language, against the comment "parse and set language". *)
Theorem bare_highlight_takes_own_name (k trail : str) (lines : gen str) :
  forallb isspace trail = true ->
  code_blocks_loop k (Yield (lit ".. highlight:: " ++ trail) lines)
  = code_blocks_loop (lit "highlight::") lines.
Proof.
  intros Htrail.
  apply loop_highlight with (word := lit "..").
  - apply startswith_app.
  - now apply rsplit1_highlight_bare.
Qed.

Lemma bare_highlight_takes_own_name_witness :
  code_blocks_loop (lit "python")
    (Yield (lit ".. highlight:: " ++ [LF]) (Yield (lit "Foo::" ++ [LF]) Return))
  = Yield (lit "Foo" ++ [LF])
      (Yield ([LF] ++ lit ".. code-block:: highlight::" ++ [LF]) Return).
Proof.
  apply (bare_highlight_takes_own_name (lit "python") [LF]
           (Yield (lit "Foo::" ++ [LF]) Return)).
  reflexivity.
Defined.

(** C6 at the failing input: after the directive without a language the
    shorthand line is expanded with [highlight::], where [python] was the
    language; nothing is raised. *)
Lemma bare_highlight_changes_language :
  rule__code_blocks
    (of_list [lit ".. highlight:: " ++ [LF]; lit "Foo::" ++ [LF]])
  = of_list [lit "Foo" ++ [LF];
             [LF] ++ lit ".. code-block:: highlight::" ++ [LF]]
  /\ rule__code_blocks (of_list [lit "Foo::" ++ [LF]])
     = of_list [lit "Foo" ++ [LF];
                [LF] ++ lit ".. code-block:: python" ++ [LF]].
Proof.
  split; reflexivity.
Qed.

(** C10: a line whose stripped text opens with two dots, and which is
    neither a highlight directive nor a header line, is no shorthand line
    however it ends: it is passed on unchanged and the language stays. *)
Theorem directive_line_kept (k line : str) (lines : gen str) :
  startswith (lit "..") (strip line) = true ->
  is_highlight line = false ->
  is_new_file line = false ->
  is_code_block_shorthand line = false
  /\ code_blocks_loop k (Yield line lines)
     = Yield line (code_blocks_loop k lines).
Proof.
  intros Hdots Hh Hn.
  assert (Hs : is_code_block_shorthand line = false).
  { unfold is_code_block_shorthand. rewrite Hdots. apply andb_false_r. }
  split; [exact Hs|].
  now rewrite loop_plain, Hn.
Qed.

Lemma directive_line_kept_witness :
  endswith (lit "::" ++ [LF]) (lit "   .. note::" ++ [LF]) = true
  /\ is_code_block_shorthand (lit "   .. note::" ++ [LF]) = false
  /\ code_blocks_loop (lit "python") (Yield (lit "   .. note::" ++ [LF]) Return)
     = Yield (lit "   .. note::" ++ [LF]) (code_blocks_loop (lit "python") Return).
Proof.
  split; [reflexivity|].
  apply (directive_line_kept (lit "python") (lit "   .. note::" ++ [LF]) Return);
    reflexivity.
Defined.

(* ------------------------------------------------------------------ *)
(** ** The source reader *)

Section ReaderFacts.
Variable relpath : str -> str -> str.
Variable PROJECT : str.
Variable script : str.
Variable fs : str -> option file.

(** C5, as the code has it: for a file that does not exist the first pull
    gives the header line, and it is the second pull that raises
    [FileNotFoundError]. *)
Theorem read_file_missing_raises_on_second_pull (file_name : str) :
  fs file_name = None ->
  exists rest,
    next (read_file relpath PROJECT fs file_name)
    = Item (lit ".. Source defined in " ++ relpath file_name PROJECT ++ [LF; LF])
        rest
    /\ next rest = Raised FileNotFoundError.
Proof.
  intros Hmissing. exists (Raise FileNotFoundError).
  unfold read_file, open_lines. rewrite Hmissing. split; reflexivity.
Qed.

(** C7, as the code has it: the first item of a fragment is the header
    line made from the template and the path relative to the project (of
    the file read, or of the script for a text of its own), and the items
    after it are the lines of the content, in order: each is a body
    without terminator and then its terminator, only the last may lack
    one, and together they are the content.  The lines of a text keep the
    terminators the text has.  The lines of a file are those of its text
    as [open] reads it, where every carriage return, with the line feed
    after it if there is one, has become a line feed: they keep their
    terminators only in a file without carriage return. *)
Theorem fragment_header_then_lines :
  (forall text,
      read_text relpath PROJECT script text
      = Yield (lit ".. Source defined in " ++ relpath script PROJECT ++ [LF; LF])
          (of_list (splitlines text))
      /\ List.concat (splitlines text) = text
      /\ lines_ok islinebreak (splitlines text)
      /\ Forall (one_line islinebreak true) (splitlines text)
      /\ pairs_kept (splitlines text))
  /\ (forall file_name,
        next (read_file relpath PROJECT fs file_name)
        = Item (lit ".. Source defined in " ++ relpath file_name PROJECT
                  ++ [LF; LF])
            (open_lines fs file_name))
  /\ (forall file_name raw,
        fs file_name = Some (Readable raw) ->
        read_file relpath PROJECT fs file_name
        = Yield (lit ".. Source defined in " ++ relpath file_name PROJECT
                   ++ [LF; LF])
            (of_list (readlines (universal_newlines raw)))
        /\ List.concat (readlines (universal_newlines raw))
           = universal_newlines raw
        /\ lines_ok (fun c => c =? LF) (readlines (universal_newlines raw))
        /\ Forall (one_line (fun c => c =? LF) false)
             (readlines (universal_newlines raw))
        /\ existsb (N.eqb CR) (universal_newlines raw) = false
        /\ (existsb (N.eqb CR) raw = false -> universal_newlines raw = raw)).
Proof.
  split; [|split].
  - intros text. unfold read_text. rewrite yield_from_Return.
    split; [reflexivity|].
    destruct (splitlines_spec text) as [Hcat Hok].
    destruct (splitlines_lines text) as [Hone Hpairs].
    auto.
  - intros file_name. unfold read_file. now rewrite yield_from_Return.
  - intros file_name raw Hfile.
    unfold read_file, open_lines. rewrite Hfile, yield_from_Return.
    split; [reflexivity|].
    destruct (readlines_spec (universal_newlines raw)) as [Hcat Hok].
    split; [exact Hcat|split; [exact Hok|split; [apply readlines_lines|]]].
    split; [exact (universal_newlines_no_CR _ raw (le_n _))|].
    apply universal_newlines_plain.
Qed.
End ReaderFacts.

Lemma read_file_missing_raises_on_second_pull_witness :
  exists rest,
    next (read_file example_relpath example_PROJECT example_fs
            (lit "/repo/docs/source/missing.rst"))
    = Item (lit ".. Source defined in "
              ++ example_relpath (lit "/repo/docs/source/missing.rst")
                   example_PROJECT
              ++ [LF; LF])
        rest
    /\ next rest = Raised FileNotFoundError.
Proof.
  apply (read_file_missing_raises_on_second_pull example_relpath example_PROJECT
           example_fs (lit "/repo/docs/source/missing.rst")).
  reflexivity.
Defined.

(** C5 fails as stated: the first pull on the reader of a missing file
    gives the header line, and raises nothing. *)
Lemma read_file_missing_first_pull_yields :
  example_fs (lit "/repo/docs/source/missing.rst") = None
  /\ next (read_file example_relpath example_PROJECT example_fs
             (lit "/repo/docs/source/missing.rst"))
     = Item (lit ".. Source defined in docs/source/missing.rst" ++ [LF; LF])
         (Raise FileNotFoundError).
Proof.
  split; reflexivity.
Qed.

Lemma fragment_header_then_lines_witness :
  read_text example_relpath example_PROJECT example_script
    (lit ".. role:: mod(literal)" ++ [LF] ++ lit ".. role:: data(literal)" ++ [LF])
  = Yield (lit ".. Source defined in "
             ++ example_relpath example_script example_PROJECT ++ [LF; LF])
      (of_list (splitlines
                  (lit ".. role:: mod(literal)" ++ [LF]
                     ++ lit ".. role:: data(literal)" ++ [LF])))
  /\ read_file example_relpath example_PROJECT example_fs
       (lit "/repo/docs/source/usage.rst")
     = Yield (lit ".. Source defined in "
                ++ example_relpath (lit "/repo/docs/source/usage.rst")
                     example_PROJECT
                ++ [LF; LF])
         (of_list (readlines
                     (universal_newlines
                        (lit "Usage" ++ [LF] ++ lit "=====" ++ [LF; LF]
                           ++ lit "Example::")))).
Proof.
  destruct (fragment_header_then_lines example_relpath example_PROJECT
              example_script example_fs) as [Htext [_ Hfile]].
  split.
  - apply Htext.
  - apply (Hfile (lit "/repo/docs/source/usage.rst") _ eq_refl).
Defined.

(** C7 fails as stated: of a file written with carriage returns the lines
    do not keep their terminators.  Each comes with a line feed, and
    together they are no longer the text of the file. *)
Lemma read_file_translates_terminators :
  example_fs_crlf (lit "/repo/docs/source/usage.rst")
  = Some (Readable (lit "Usage" ++ [CR; LF] ++ lit "=====" ++ [CR]
                      ++ lit "Example::"))
  /\ read_file example_relpath example_PROJECT example_fs_crlf
       (lit "/repo/docs/source/usage.rst")
     = of_list [lit ".. Source defined in docs/source/usage.rst" ++ [LF; LF];
                lit "Usage" ++ [LF];
                lit "=====" ++ [LF];
                lit "Example::"]
  /\ List.concat [lit "Usage" ++ [LF]; lit "=====" ++ [LF]; lit "Example::"]
     <> lit "Usage" ++ [CR; LF] ++ lit "=====" ++ [CR] ++ lit "Example::".
Proof.
  repeat split; discriminate.
Qed.

(* ------------------------------------------------------------------ *)
(** ** The unpacking in [rule__code_blocks] never fails *)

Lemma dropwhile_app_cases (p : char -> bool) (a b : str) :
  dropwhile p (a ++ b) = dropwhile p a ++ b
  \/ dropwhile p (a ++ b) = dropwhile p b.
Proof.
  induction a as [|c a IH]; simpl; [now right|].
  destruct (p c); [exact IH|now left].
Qed.

Lemma dropwhile_tail_left (p : char -> bool) (a b : str) :
  dropwhile p b <> [] -> dropwhile p (a ++ b) <> [].
Proof.
  intros Hb.
  destruct (dropwhile_app_cases p a b) as [-> | ->]; [|exact Hb].
  destruct b; [now destruct Hb|].
  now destruct (dropwhile p a).
Qed.

(** A line that starts as a highlight directive has two words at least:
    [rsplit] gives the pair the assignment unpacks. *)
Lemma rsplit1_highlight_pair (line : str) :
  is_highlight line = true ->
  exists word language, rsplit1 line = [word; language].
Proof.
  intros H; apply startswith_inv in H as [x ->].
  unfold rsplit1. rewrite rev_app_distr.
  change (rev (lit ".. highlight:: ")) with (0x20 :: rev (lit ".. highlight::")).
  set (q := rev (lit ".. highlight::")).
  assert (Hq : dropwhile isspace (0x20 :: q) <> []) by discriminate.
  destruct (dropwhile isspace (rev x ++ 0x20 :: q)) as [|c r] eqn:R.
  { now apply (dropwhile_tail_left isspace (rev x)) in Hq. }
  rewrite <- R.
  destruct (dropwhile isspace
              (dropwhile (fun c => negb (isspace c))
                 (dropwhile isspace (rev x ++ 0x20 :: q)))) as [|d rest] eqn:E.
  - exfalso.
    destruct (dropwhile_app_cases isspace (rev x) (0x20 :: q)) as [D | D];
      rewrite D in E.
    + destruct (dropwhile_app_cases (fun c => negb (isspace c))
                  (dropwhile isspace (rev x)) (0x20 :: q)) as [F | F];
        rewrite F in E.
      * now apply (dropwhile_tail_left isspace
                     (dropwhile (fun c => negb (isspace c))
                        (dropwhile isspace (rev x)))) in Hq.
      * discriminate E.
    + discriminate E.
  - eauto.
Qed.

(** The stage raises what its input raises and nothing of its own: a
    highlight directive is always unpacked. *)
Lemma code_blocks_loop_ending (lines : gen str) :
  forall k, ending (code_blocks_loop k lines) = ending lines.
Proof.
  induction lines as [|line lines IH|e]; intros k; [reflexivity| |reflexivity].
  cbn [code_blocks_loop ending].
  destruct (is_highlight line) eqn:H.
  - destruct (rsplit1_highlight_pair line H) as [word [language ->]].
    apply IH.
  - destruct (is_code_block_shorthand line); cbn [ending]; apply IH.
Qed.

(** [rule__code_blocks] ends as its input ends: it raises no [ValueError]
    on any highlight directive, with or without a language. *)
Theorem rule__code_blocks_raises_nothing (lines : gen str) :
  ending (rule__code_blocks lines) = ending lines.
Proof.
  apply code_blocks_loop_ending.
Qed.

(* ------------------------------------------------------------------ *)
(** ** How generators end, and what they yield before *)

Lemma of_list_items {A} (g : gen A) : ending g = None -> of_list (items g) = g.
Proof.
  induction g as [|a g IH|e]; simpl; intros H;
    [reflexivity|now rewrite IH|discriminate].
Qed.

Lemma ending_list {A} (l : list A) : ending (of_list l) = None.
Proof.
  induction l as [|a l IH]; simpl; auto.
Qed.

Lemma items_yield_from {A} (g k : gen A) :
  items (yield_from g k)
  = items g ++ match ending g with None => items k | Some _ => [] end.
Proof.
  induction g as [|a g IH|e]; simpl; [reflexivity|now rewrite IH|reflexivity].
Qed.

Lemma ending_yield_from {A} (g k : gen A) :
  ending (yield_from g k)
  = match ending g with None => ending k | Some e => Some e end.
Proof.
  induction g as [|a g IH|e]; simpl; auto.
Qed.

Lemma yield_from_assoc {A} (g k m : gen A) :
  yield_from (yield_from g k) m = yield_from g (yield_from k m).
Proof.
  induction g as [|a g IH|e]; simpl; [reflexivity|now rewrite IH|reflexivity].
Qed.

(** The two rules of [sanitize], for the proofs below. *)
Lemma sanitize_unfold (lines : gen str) :
  sanitize lines = rule__other_rules (code_blocks_loop (lit "python") lines).
Proof.
  unfold sanitize, pipeline.
  now rewrite !yield_from_Return, reduce_apply.
Qed.

Lemma other_rules_ending (lines : gen str) :
  ending (rule__other_rules lines) = ending lines.
Proof.
  induction lines as [|line lines IH|e]; [reflexivity| |reflexivity].
  cbn [rule__other_rules ending].
  now destruct (startswith (lit ":orphan:") line).
Qed.

Lemma other_rules_items (lines : gen str) :
  items (rule__other_rules lines)
  = filter (fun line => negb (startswith (lit ":orphan:") line)) (items lines).
Proof.
  induction lines as [|line lines IH|e]; [reflexivity| |reflexivity].
  cbn [rule__other_rules items filter].
  destruct (startswith (lit ":orphan:") line); cbn [negb items];
    now rewrite IH.
Qed.

Lemma other_rules_over_yield_from (g k : gen str) :
  rule__other_rules (yield_from g k)
  = yield_from (rule__other_rules g) (rule__other_rules k).
Proof.
  induction g as [|line g IH|e]; [reflexivity| |reflexivity].
  cbn [yield_from rule__other_rules].
  destruct (startswith (lit ":orphan:") line); cbn [yield_from];
    now rewrite IH.
Qed.

Lemma sanitize_ending (lines : gen str) : ending (sanitize lines) = ending lines.
Proof.
  now rewrite sanitize_unfold, other_rules_ending, code_blocks_loop_ending.
Qed.

(* ------------------------------------------------------------------ *)
(** ** The concatenator when a source fails *)

Lemma concatenate_ending_cons (source : gen str) (sources : gen (gen str)) :
  ending (concatenate (Yield source sources))
  = match ending source with
    | None => ending (concatenate sources)
    | Some e => Some e
    end.
Proof.
  cbn [concatenate]. now rewrite ending_yield_from.
Qed.

Lemma concatenate_yield_from (before : list (list str)) (sources : gen (gen str)) :
  concatenate (yield_from (sources_of before) sources)
  = yield_from (concatenate (sources_of before)) (concatenate sources).
Proof.
  unfold sources_of.
  induction before as [|lines before IH]; [reflexivity|].
  cbn [map of_list yield_from concatenate].
  rewrite IH, yield_from_assoc. reflexivity.
Qed.

(** [concatenate] stops at the first source that raises: the stream holds
    the fragments before it, each with its separator, then what the
    failing source yielded, and ends with the source's exception.  No
    separator follows, and no later source is read. *)
Theorem concatenate_stops_at_failing_source (before : list (list str))
    (failing : gen str) (e : exn) (after : gen (gen str)) :
  ending failing = Some e ->
  items (concatenate (yield_from (sources_of before) (Yield failing after)))
  = flat_map (fun lines => lines ++ [SEPARATOR]) before ++ items failing
  /\ ending (concatenate (yield_from (sources_of before) (Yield failing after)))
     = Some e.
Proof.
  intros He.
  rewrite concatenate_yield_from, concatenate_sources.
  split.
  - rewrite items_yield_from, ending_list, items_of_list.
    cbn [concatenate]. now rewrite items_yield_from, He, app_nil_r.
  - rewrite ending_yield_from, ending_list, concatenate_ending_cons.
    now rewrite He.
Qed.

Lemma concatenate_stops_at_failing_source_witness :
  items (concatenate
           (yield_from (sources_of [[lit "one" ++ [LF]]])
              (Yield (Yield (lit "header" ++ [LF]) (Raise FileNotFoundError))
                 (Yield (of_list [lit "three" ++ [LF]]) Return))))
  = [lit "one" ++ [LF]; SEPARATOR; lit "header" ++ [LF]]
  /\ ending (concatenate
               (yield_from (sources_of [[lit "one" ++ [LF]]])
                  (Yield (Yield (lit "header" ++ [LF]) (Raise FileNotFoundError))
                     (Yield (of_list [lit "three" ++ [LF]]) Return))))
     = Some FileNotFoundError.
Proof.
  apply (concatenate_stops_at_failing_source [[lit "one" ++ [LF]]]
           (Yield (lit "header" ++ [LF]) (Raise FileNotFoundError))
           FileNotFoundError
           (Yield (of_list [lit "three" ++ [LF]]) Return)).
  reflexivity.
Defined.

(* ------------------------------------------------------------------ *)
(** ** [sanitize] over the headers and the fragments of the reader *)

Lemma header_is_new_file (path : str) :
  is_new_file (percent FILE_HEADER path) = true.
Proof. reflexivity. Qed.

(** The header line the reader makes for any path is the line that
    [rule__code_blocks] takes for the start of a file: [sanitize] passes
    it on unchanged, and what follows is sanitized as a stream of its own,
    from the default language. *)
Theorem sanitize_keeps_header (path : str) (lines : gen str) :
  is_new_file (percent FILE_HEADER path) = true
  /\ (forall k,
        code_blocks_loop k (Yield (percent FILE_HEADER path) lines)
        = Yield (percent FILE_HEADER path) (rule__code_blocks lines))
  /\ sanitize (Yield (percent FILE_HEADER path) lines)
     = Yield (percent FILE_HEADER path) (sanitize lines).
Proof.
  split; [reflexivity|split].
  - intros k. now rewrite loop_header.
  - rewrite !sanitize_unfold. now rewrite loop_header.
Qed.

Lemma loop_separator (k : str) (lines : gen str) :
  code_blocks_loop k (Yield SEPARATOR lines)
  = Yield SEPARATOR (code_blocks_loop k lines).
Proof. now rewrite loop_plain. Qed.

(** From any language, the shorthand rule over fragments that each open
    with a header line is the rule over each fragment. *)
Lemma loop_concatenate (fragments : list (list str)) :
  forallb (fun f => match f with [] => false | h :: _ => is_new_file h end)
    fragments = true ->
  forall k,
    code_blocks_loop k (concatenate (sources_of fragments))
    = concatenate
        (sources_of
           (map (fun f => items (code_blocks_loop (lit "python") (of_list f)))
              fragments)).
Proof.
  unfold sources_of.
  induction fragments as [|f fragments IH]; intros H k; [reflexivity|].
  simpl in H; apply andb_true_iff in H as [Hf Hrest].
  destruct f as [|h body]; [discriminate|].
  cbn [map of_list concatenate yield_from].
  rewrite !loop_header by assumption.
  cbn [items of_list yield_from]. f_equal.
  rewrite of_list_items
    by now rewrite code_blocks_loop_ending, ending_list.
  apply loop_before_reset; intros k'.
  rewrite loop_separator. f_equal. now apply IH.
Qed.

Lemma other_rules_concatenate (fragments : list (list str)) :
  rule__other_rules (concatenate (sources_of fragments))
  = concatenate
      (sources_of
         (map (fun f => items (rule__other_rules (of_list f))) fragments)).
Proof.
  unfold sources_of.
  induction fragments as [|f fragments IH]; [reflexivity|].
  cbn [map of_list concatenate].
  rewrite other_rules_over_yield_from.
  rewrite of_list_items by now rewrite other_rules_ending, ending_list.
  f_equal. cbn [rule__other_rules].
  change (startswith (lit ":orphan:") SEPARATOR) with false.
  cbn iota. now rewrite IH.
Qed.

(** The fragments do not reach into each other: when every fragment opens
    with a header line, as the reader makes them, sanitizing the
    concatenated stream gives the concatenation of the fragments sanitized
    one by one, the separators unchanged between them. *)
Theorem sanitize_fragment_by_fragment (fragments : list (list str)) :
  forallb (fun f => match f with [] => false | h :: _ => is_new_file h end)
    fragments = true ->
  sanitize (concatenate (sources_of fragments))
  = concatenate
      (sources_of (map (fun f => items (sanitize (of_list f))) fragments)).
Proof.
  intros H.
  rewrite sanitize_unfold, loop_concatenate, other_rules_concatenate
    by assumption.
  rewrite map_map. do 2 f_equal.
  apply map_ext; intros f.
  rewrite sanitize_unfold, of_list_items
    by now rewrite code_blocks_loop_ending, ending_list.
  reflexivity.
Qed.

Lemma sanitize_fragment_by_fragment_witness :
  sanitize
    (concatenate
       (sources_of
          [[lit ".. Source defined in docs/source/installation.rst" ++ [LF; LF];
            lit ".. highlight:: bash" ++ [LF];
            lit "Install::" ++ [LF]];
           [lit ".. Source defined in docs/source/usage.rst" ++ [LF; LF];
            lit ":orphan:" ++ [LF];
            lit "Example::" ++ [LF]]]))
  = of_list
      [lit ".. Source defined in docs/source/installation.rst" ++ [LF; LF];
       lit "Install" ++ [LF];
       [LF] ++ lit ".. code-block:: bash" ++ [LF];
       SEPARATOR;
       lit ".. Source defined in docs/source/usage.rst" ++ [LF; LF];
       lit "Example" ++ [LF];
       [LF] ++ lit ".. code-block:: python" ++ [LF];
       SEPARATOR].
Proof.
  apply (sanitize_fragment_by_fragment
           [[lit ".. Source defined in docs/source/installation.rst" ++ [LF; LF];
             lit ".. highlight:: bash" ++ [LF];
             lit "Install::" ++ [LF]];
            [lit ".. Source defined in docs/source/usage.rst" ++ [LF; LF];
             lit ":orphan:" ++ [LF];
             lit "Example::" ++ [LF]]]).
  reflexivity.
Defined.

(* ------------------------------------------------------------------ *)
(** ** What [sanitize] removes and what it leaves *)

(** A text that opens with two dots once [::] is taken from its line ends
    opened with them before. *)
Lemma replace_keeps_dots (line : str) :
  startswith (lit "..") (replace (lit "::" ++ [LF]) [LF] line) = true ->
  startswith (lit "..") line = true.
Proof.
  unfold replace.
  change (lit "::" ++ [LF]) with [58; 58; LF].
  change (lit "..") with [46; 46].
  destruct line as [|c [|d line]]; cbn [replace_from].
  - discriminate.
  - destruct (startswith [58; 58; LF] [c]); [discriminate|].
    cbn [startswith app]. now rewrite andb_false_r.
  - destruct (startswith [58; 58; LF] (c :: d :: line)); [discriminate|].
    destruct (startswith [58; 58; LF] (d :: line)).
    + cbn [app startswith]. intros H.
      apply andb_true_iff in H as [_ H]. discriminate H.
    + cbn [startswith]. intros H.
      apply andb_true_iff in H as [Hc H].
      apply andb_true_iff in H as [Hd _].
      now rewrite Hc, Hd.
Qed.

Lemma replace_not_highlight (line : str) :
  is_code_block_shorthand line = true ->
  is_highlight (replace (lit "::" ++ [LF]) [LF] line) = false.
Proof.
  intros S.
  destruct (is_highlight (replace (lit "::" ++ [LF]) [LF] line)) eqn:H;
    [|reflexivity].
  apply (startswith_inv (lit ".." ++ lit " highlight:: ")) in H as [x Hx].
  assert (Hdots : startswith (lit "..") line = true).
  { apply replace_keeps_dots. rewrite Hx. reflexivity. }
  apply (dots_stay []) in Hdots.
  unfold is_code_block_shorthand in S.
  rewrite Hdots in S. now rewrite andb_false_r in S.
Qed.

Lemma loop_no_highlight (lines : gen str) :
  forall k,
    Forall (fun line => is_highlight line = false)
      (items (code_blocks_loop k lines)).
Proof.
  induction lines as [|line lines IH|e]; intros k; [constructor| |constructor].
  cbn [code_blocks_loop].
  destruct (is_highlight line) eqn:H.
  - destruct (rsplit1 line) as [|? [|? [|? ?]]]; auto; constructor.
  - destruct (is_code_block_shorthand line) eqn:S; cbn [items].
    + constructor; [now apply replace_not_highlight|].
      constructor; [reflexivity|apply IH].
    + constructor; [assumption|apply IH].
Qed.

(** No directive that [sanitize] is there to remove is left in its
    output: no item starts with [.. highlight:: ] and none with
    [:orphan:], also not one of the items the shorthand rule makes. *)
Theorem sanitize_leaves_no_directive (lines : gen str) :
  Forall (fun line => is_highlight line = false
                      /\ startswith (lit ":orphan:") line = false)
    (items (sanitize lines)).
Proof.
  rewrite sanitize_unfold, other_rules_items.
  apply Forall_forall; intros line Hin.
  apply filter_In in Hin as [Hin Horphan].
  split.
  - pose proof (loop_no_highlight lines (lit "python")) as F.
    rewrite Forall_forall in F. now apply F.
  - now apply negb_true_iff in Horphan.
Qed.

Lemma loop_identity (lines : gen str) :
  forallb (fun line => negb (is_highlight line)
                       && negb (is_code_block_shorthand line))
    (items lines) = true ->
  forall k, code_blocks_loop k lines = lines.
Proof.
  induction lines as [|line lines IH|e]; intros H k; [reflexivity| |reflexivity].
  cbn [items forallb] in H.
  apply andb_true_iff in H as [Hline Hrest].
  apply andb_true_iff in Hline as [Hh Hs].
  apply negb_true_iff in Hh, Hs.
  rewrite loop_plain by assumption. now rewrite IH.
Qed.

(** Lines that are no highlight directive, no shorthand line and no
    orphan marker pass [sanitize] unchanged, one by one, and the stream
    ends as it did. *)
Theorem sanitize_identity_on_plain_lines (lines : gen str) :
  forallb (fun line => negb (is_highlight line)
                       && negb (is_code_block_shorthand line)
                       && negb (startswith (lit ":orphan:") line))
    (items lines) = true ->
  rule__code_blocks lines = lines /\ sanitize lines = lines.
Proof.
  intros H.
  assert (Hloop : code_blocks_loop (lit "python") lines = lines).
  { apply loop_identity.
    rewrite forallb_forall in H |- *; intros line Hin.
    specialize (H line Hin). now apply andb_true_iff in H as [H _]. }
  split; [exact Hloop|].
  rewrite sanitize_unfold, Hloop.
  clear Hloop.
  induction lines as [|line lines IH|e]; [reflexivity| |reflexivity].
  cbn [items forallb] in H.
  apply andb_true_iff in H as [Hline Hrest].
  apply andb_true_iff in Hline as [_ Ho]. apply negb_true_iff in Ho.
  cbn [rule__other_rules]. now rewrite Ho, IH.
Qed.

Lemma sanitize_identity_on_plain_lines_witness :
  rule__code_blocks
    (of_list [lit "Usage" ++ [LF]; lit "=====" ++ [LF]; SEPARATOR;
              lit "   .. note::" ++ [LF]])
  = of_list [lit "Usage" ++ [LF]; lit "=====" ++ [LF]; SEPARATOR;
             lit "   .. note::" ++ [LF]]
  /\ sanitize
       (of_list [lit "Usage" ++ [LF]; lit "=====" ++ [LF]; SEPARATOR;
                 lit "   .. note::" ++ [LF]])
     = of_list [lit "Usage" ++ [LF]; lit "=====" ++ [LF]; SEPARATOR;
                lit "   .. note::" ++ [LF]].
Proof.
  apply (sanitize_identity_on_plain_lines
           (of_list [lit "Usage" ++ [LF]; lit "=====" ++ [LF]; SEPARATOR;
                     lit "   .. note::" ++ [LF]])).
  reflexivity.
Defined.

(** Running [rule__other_rules] on its own output changes nothing. *)
Theorem rule__other_rules_idempotent (lines : gen str) :
  rule__other_rules (rule__other_rules lines) = rule__other_rules lines.
Proof.
  induction lines as [|line lines IH|e]; [reflexivity| |reflexivity].
  cbn [rule__other_rules].
  destruct (startswith (lit ":orphan:") line) eqn:H; [exact IH|].
  cbn [rule__other_rules]. now rewrite H, IH.
Qed.

(* ------------------------------------------------------------------ *)
(** ** Pipelines of pipelines, and the pipeline of no step *)

Lemma fold_steps_some {A} (steps : list (@step A)) (initial : option (gen A)) :
  steps <> [] ->
  exists g,
    fold_left (fun result (s : step) => Some (s result)) steps initial = Some g.
Proof.
  revert initial; induction steps as [|s steps IH]; intros initial H;
    [now destruct H|].
  cbn [fold_left].
  destruct steps as [|s' steps]; [now eexists|].
  apply IH; discriminate.
Qed.

Lemma pipeline_fold {A} (steps : list (@step A)) (initial : option (gen A)) :
  pipeline steps initial
  = iter (fold_left (fun result (s : step) => Some (s result)) steps initial).
Proof.
  unfold pipeline. now rewrite yield_from_Return, reduce_apply.
Qed.

(** A pipeline can be cut in two: the steps after the cut, run on the
    stream of the steps before it, give the stream of the whole pipeline.
    This is how [sanitize] stands for its two rules among the steps of the
    script. *)
Theorem pipeline_of_pipelines {A} (first rest : list (@step A))
    (initial : option (gen A)) :
  first <> [] ->
  pipeline (first ++ rest) initial
  = pipeline rest (Some (pipeline first initial)).
Proof.
  intros H.
  rewrite !pipeline_fold, fold_left_app.
  destruct (fold_steps_some first initial H) as [g ->].
  reflexivity.
Qed.

Lemma pipeline_of_pipelines_witness :
  pipeline ([call rule__code_blocks] ++ [call rule__other_rules])
    (Some (of_list [lit ":orphan:" ++ [LF]; lit "Foo::" ++ [LF]]))
  = pipeline [call rule__other_rules]
      (Some (pipeline [call rule__code_blocks]
               (Some (of_list [lit ":orphan:" ++ [LF]; lit "Foo::" ++ [LF]])))).
Proof.
  apply (pipeline_of_pipelines [call rule__code_blocks]
           [call rule__other_rules]
           (Some (of_list [lit ":orphan:" ++ [LF]; lit "Foo::" ++ [LF]]))).
  discriminate.
Defined.

(** With no step the pipeline is its initial value iterated: the stream
    itself, and for the default [None] a [TypeError] at the first pull.
    With one step it is that step called with the initial value, whatever
    it is, [None] included. *)
Theorem pipeline_without_steps {A} (g : gen A) (s : @step A) :
  pipeline [] (Some g) = g
  /\ next (@pipeline A [] None) = Raised TypeError
  /\ forall initial : option (gen A), pipeline [s] initial = s initial.
Proof.
  repeat split; try intros initial; unfold pipeline; cbn [reduce iter apply];
    now rewrite ?yield_from_Return.
Qed.

(* ------------------------------------------------------------------ *)
(** ** Which word of a highlight directive is the language *)

(** Of a highlight directive with several words the last one is the
    language: what stands between it and the prefix is dropped with the
    line. *)
Theorem highlight_takes_last_word (k words language trail : str) (sp : char)
    (lines : gen str) :
  isspace sp = true ->
  language <> [] ->
  forallb (fun c => negb (isspace c)) language = true ->
  forallb isspace trail = true ->
  code_blocks_loop k
    (Yield (lit ".. highlight:: " ++ words ++ sp :: language ++ trail) lines)
  = code_blocks_loop language lines.
Proof.
  intros Hsp Hne Hword Htrail.
  apply loop_highlight
    with (word := rstrip (lit ".. highlight:: " ++ words)).
  - apply startswith_app.
  - rewrite app_assoc.
    apply rsplit1_last_word; try assumption.
    change (lit ".. highlight:: " ++ words)
      with (46 :: (lit ". highlight:: " ++ words)).
    now rewrite rstrip_cons.
Qed.

Lemma highlight_takes_last_word_witness :
  code_blocks_loop (lit "python")
    (Yield (lit ".. highlight:: " ++ lit "python" ++ 0x20 :: lit "3" ++ [LF])
       (Yield (lit "Foo::" ++ [LF]) Return))
  = code_blocks_loop (lit "3") (Yield (lit "Foo::" ++ [LF]) Return).
Proof.
  apply (highlight_takes_last_word (lit "python") (lit "python") (lit "3") [LF]
           0x20 (Yield (lit "Foo::" ++ [LF]) Return));
    [reflexivity|discriminate|reflexivity..].
Defined.

(* ------------------------------------------------------------------ *)
(** ** Writing the file *)

Lemma str_eqb_refl (a : str) : str_eqb a a = true.
Proof.
  induction a as [|c a IH]; simpl; [reflexivity|].
  now rewrite N.eqb_refl, IH.
Qed.

Lemma run_yield_from_Finish {A} (r : run A) : run_yield_from r Finish = r.
Proof.
  induction r as [|a r IH|e|ev r IH]; simpl; try reflexivity; now rewrite IH.
Qed.

Lemma write_file_loop_events (file_name : str) (lines : gen str) :
  events (write_file_loop file_name lines)
  = map (Write file_name) (items lines) ++ [Close file_name].
Proof.
  induction lines as [|line lines IH|e]; simpl; [reflexivity| |reflexivity].
  now rewrite IH.
Qed.

Lemma write_file_loop_emitted (file_name : str) (lines : gen str) :
  emitted (write_file_loop file_name lines)
  = map (@List.length char) (items lines).
Proof.
  induction lines as [|line lines IH|e]; simpl; [reflexivity| |reflexivity].
  now rewrite IH.
Qed.

Lemma write_file_loop_outcome (file_name : str) (lines : gen str) :
  outcome (write_file_loop file_name lines) = ending lines.
Proof.
  induction lines as [|line lines IH|e]; simpl; auto.
Qed.

Lemma file_content_writes (file_name : str) (texts : list str) (content : str) :
  file_content file_name (Some content)
    (map (Write file_name) texts ++ [Close file_name])
  = Some (content ++ List.concat texts).
Proof.
  revert content; induction texts as [|text texts IH]; intros content.
  - simpl. now rewrite app_nil_r.
  - cbn [map app file_content List.concat].
    rewrite str_eqb_refl. cbn [option_map].
    now rewrite IH, app_assoc.
Qed.

(** [write_file] first opens the file for writing.  When that fails it
    raises the error of the open at once: nothing is yielded, no line is
    asked for, and the file is left as it was.  When the file opens it is
    emptied, every line given is written in order, and the file is closed
    when the lines end, also when they end with an exception, which is
    passed on; the length of each line written is yielded, and whatever
    the file held before, it then holds the lines written and nothing
    else. *)
Theorem write_file_writes_lines (writable : str -> option exn)
    (file_name : str) (before : option str) (lines : gen str) :
  match writable file_name with
  | Some e =>
      write_file writable file_name lines = Fail e
      /\ file_content file_name before
           (events (write_file writable file_name lines))
         = before
  | None =>
      emitted (write_file writable file_name lines)
      = map (@List.length char) (items lines)
      /\ outcome (write_file writable file_name lines) = ending lines
      /\ events (write_file writable file_name lines)
         = Open file_name :: map (Write file_name) (items lines)
             ++ [Close file_name]
      /\ file_content file_name before
           (events (write_file writable file_name lines))
         = Some (List.concat (items lines))
  end.
Proof.
  unfold write_file.
  destruct (writable file_name) as [e|]; [split; reflexivity|].
  cbn [emitted outcome events].
  rewrite write_file_loop_emitted, write_file_loop_outcome,
    write_file_loop_events.
  repeat split.
  cbn [file_content]. rewrite str_eqb_refl.
  now rewrite file_content_writes.
Qed.

(* ------------------------------------------------------------------ *)
(** ** Reporting progress *)

Lemma notify_loop_emitted {A} (lines : run A) :
  forall i, emitted (notify_loop i lines) = emitted lines.
Proof.
  induction lines as [|a lines IH|e|ev lines IH]; intros i;
    cbn [notify_loop emitted]; auto.
  destruct (Nat.eqb (Nat.modulo i 5) 0); cbn [emitted]; now rewrite IH.
Qed.

Lemma notify_loop_outcome {A} (lines : run A) :
  forall i, outcome (notify_loop i lines) = outcome lines.
Proof.
  induction lines as [|a lines IH|e|ev lines IH]; intros i;
    cbn [notify_loop outcome]; auto.
  destruct (Nat.eqb (Nat.modulo i 5) 0); cbn [outcome]; now rewrite IH.
Qed.

Lemma notify_loop_files {A} (file_name : str) (lines : run A) :
  forall i before,
    file_content file_name before (events (notify_loop i lines))
    = file_content file_name before (events lines).
Proof.
  induction lines as [|a lines IH|e|ev lines IH]; intros i before;
    cbn [notify_loop events file_content print]; auto.
  - destruct (Nat.eqb (Nat.modulo i 5) 0);
      cbn [events file_content print]; now rewrite IH.
  - destruct ev; cbn [file_content]; now rewrite IH.
Qed.

(** [notify] only watches: it yields the items it is given, unchanged and
    in order, ends as its input ends, and leaves every file as its input
    leaves it. *)
Theorem notify_passes_through {A} (lines : run A) :
  emitted (notify lines) = emitted lines
  /\ outcome (notify lines) = outcome lines
  /\ forall file_name before,
       file_content file_name before (events (notify lines))
       = file_content file_name before (events lines).
Proof.
  unfold notify; cbn [emitted outcome events]; repeat split.
  - apply notify_loop_emitted.
  - apply notify_loop_outcome.
  - intros. cbn [print file_content]. apply notify_loop_files.
Qed.

Lemma ticks_S_tick (i : nat) :
  Nat.modulo i 5 = 0%nat -> ticks (S i) = S (ticks i).
Proof.
  unfold ticks; intros H.
  pose proof (Nat.div_mod_eq i 5) as E.
  assert (Hi : i = (5 * Nat.div i 5)%nat) by lia.
  rewrite Hi at 1 2.
  replace (S (5 * Nat.div i 5) + 4)%nat with ((Nat.div i 5 + 1) * 5)%nat by lia.
  rewrite Nat.div_mul by lia.
  replace (5 * Nat.div i 5 + 4)%nat with (4 + Nat.div i 5 * 5)%nat by lia.
  rewrite Nat.div_add by lia. simpl. lia.
Qed.

Lemma ticks_S_no_tick (i : nat) :
  Nat.modulo i 5 <> 0%nat -> ticks (S i) = ticks i.
Proof.
  unfold ticks; intros H.
  pose proof (Nat.div_mod_eq i 5) as E.
  pose proof (Nat.mod_upper_bound i 5 ltac:(lia)) as B.
  set (q := Nat.div i 5) in *. set (r := Nat.modulo i 5) in *.
  rewrite E.
  replace (S (5 * q + r) + 4)%nat with ((r + 5) + q * 5)%nat by lia.
  replace (5 * q + r + 4)%nat with ((r + 4) + q * 5)%nat by lia.
  rewrite !Nat.div_add by lia.
  f_equal.
  destruct r as [|[|[|[|[|r]]]]]; try reflexivity; lia.
Qed.

Lemma ticks_mono (i n : nat) : (ticks i <= ticks (i + n))%nat.
Proof.
  unfold ticks. apply Nat.Div0.div_le_mono. lia.
Qed.

Lemma notify_loop_stdout {A} (lines : run A) :
  stdout (events lines) = [] ->
  forall i,
    stdout (events (notify_loop i lines))
    = repeat 46 (ticks (i + List.length (emitted lines)) - ticks i)
        ++ match outcome lines with
           | None => lit "Done!" ++ [LF]
           | Some _ => []
           end.
Proof.
  induction lines as [|a lines IH|e|ev lines IH]; intros Hquiet i.
  - cbn [emitted List.length outcome]. now rewrite Nat.add_0_r, Nat.sub_diag.
  - cbn [emitted List.length outcome notify_loop].
    pose proof (ticks_mono (S i) (List.length (emitted lines))) as M.
    replace (i + S (List.length (emitted lines)))%nat
      with (S i + List.length (emitted lines))%nat by lia.
    destruct (Nat.eqb (Nat.modulo i 5) 0) eqn:T.
    + apply Nat.eqb_eq in T. rewrite (ticks_S_tick i T) in M.
      cbn [events stdout flat_map print join app].
      change (flat_map _ ?evs) with (stdout evs).
      rewrite (IH Hquiet (S i)), (ticks_S_tick i T).
      replace (ticks (S i + List.length (emitted lines)) - ticks i)%nat
        with (S (ticks (S i + List.length (emitted lines)) - S (ticks i)))
        by lia.
      reflexivity.
    + apply Nat.eqb_neq in T.
      cbn [events]. now rewrite (IH Hquiet (S i)), (ticks_S_no_tick i T).
  - cbn [emitted List.length outcome]. now rewrite Nat.add_0_r, Nat.sub_diag.
  - cbn [emitted outcome notify_loop events].
    cbn [events] in Hquiet.
    unfold stdout in Hquiet |- *. cbn [flat_map] in Hquiet |- *.
    apply app_eq_nil in Hquiet as [Hev Hrest].
    rewrite Hev. cbn [app]. now apply IH.
Qed.

(** Around an input that prints nothing itself, [notify] prints
    [Writing README.rst], a dot before the first item and before every
    fifth one after it, and [Done!] with a line feed once the input has
    ended; when the input ends with an exception no [Done!] is printed. *)
Theorem notify_reports_progress {A} (lines : run A) :
  stdout (events lines) = [] ->
  stdout (events (notify lines))
  = lit "Writing README.rst"
      ++ repeat 46 (ticks (List.length (emitted lines)))
      ++ match outcome lines with
         | None => lit "Done!" ++ [LF]
         | Some _ => []
         end.
Proof.
  intros Hquiet. unfold notify.
  cbn [events]. unfold stdout at 1. cbn [flat_map].
  change (flat_map _ ?evs) with (stdout evs).
  rewrite (notify_loop_stdout lines Hquiet 0).
  change (ticks 0) with 0%nat. now rewrite Nat.sub_0_r.
Qed.

Lemma notify_reports_progress_witness :
  stdout
    (events
       (notify
          (write_file (fun _ => None) (lit "README.rst")
             (of_list [lit "1"; lit "2"; lit "3"; lit "4"; lit "5"; lit "6"]))))
  = lit "Writing README.rst.." ++ lit "Done!" ++ [LF].
Proof.
  apply (notify_reports_progress
           (write_file (fun _ => None) (lit "README.rst")
              (of_list [lit "1"; lit "2"; lit "3"; lit "4"; lit "5"; lit "6"]))).
  reflexivity.
Defined.

(* ------------------------------------------------------------------ *)
(** ** The whole run *)


Section RunFacts.
Variable relpath : str -> str -> str.
Variable PROJECT : str.
Variable script : str.
Variable SOURCE : str -> str.
Variable fs : str -> option file.
Variable writable : str -> option exn.
Variable comment_line : str.
Variable OUT_FILE : str.

Local Abbreviation sources :=
  (include_documents relpath PROJECT script SOURCE fs comment_line).
Local Abbreviation run_main :=
  (main relpath PROJECT script SOURCE fs writable comment_line OUT_FILE).

Lemma read_text_ending (text : str) :
  ending (read_text relpath PROJECT script text) = None.
Proof.
  unfold read_text; cbn [ending].
  now rewrite yield_from_Return, ending_list.
Qed.

Lemma read_source_ending (file_name : str) :
  ending (read_source relpath PROJECT SOURCE fs file_name)
  = open_error fs (SOURCE file_name).
Proof.
  unfold read_source, read_file, open_lines, open_error.
  rewrite !yield_from_Return; cbn [ending].
  destruct (fs (SOURCE file_name)) as [[raw|e]|];
    [apply ending_list|reflexivity|reflexivity].
Qed.

Lemma main_unwritable (e : exn) :
  writable OUT_FILE = Some e ->
  run_main = Do (print [lit "Writing"; README] []) (Fail e).
Proof.
  intros H. unfold main, write_out, write_file. now rewrite H.
Qed.

Lemma main_writable :
  writable OUT_FILE = None ->
  run_main
  = notify (Do (Open OUT_FILE)
              (write_file_loop OUT_FILE (sanitize (concatenate sources)))).
Proof.
  intros H. unfold main, write_out, write_file.
  now rewrite H, run_yield_from_Finish.
Qed.

(** A run first prints that it writes, then opens the output file.  When
    that open fails the run ends with its error: nothing is yielded, no
    fragment is read and the file is left as it was.  When the file opens,
    what the run leaves in it is the sanitized concatenation of the
    fragments: whatever the file held before, it then holds the items of
    that stream one after the other, as far as the stream got; the run
    gives the length of each item written and ends as the concatenated
    sources end; and standard output shows the progress over those
    items. *)
Theorem main_writes_sanitized_document (before : option str) :
  match writable OUT_FILE with
  | Some e =>
      emitted run_main = []
      /\ outcome run_main = Some e
      /\ file_content OUT_FILE before (events run_main) = before
      /\ stdout (events run_main) = lit "Writing README.rst"
  | None =>
      emitted run_main
      = map (@List.length char) (items (sanitize (concatenate sources)))
      /\ outcome run_main = ending (concatenate sources)
      /\ file_content OUT_FILE before (events run_main)
         = Some (List.concat (items (sanitize (concatenate sources))))
      /\ stdout (events run_main)
         = lit "Writing README.rst"
             ++ repeat 46
                  (ticks (List.length (items (sanitize (concatenate sources)))))
             ++ match ending (concatenate sources) with
                | None => lit "Done!" ++ [LF]
                | Some _ => []
                end
  end.
Proof.
  destruct (writable OUT_FILE) as [e|] eqn:W.
  - rewrite (main_unwritable e W). repeat split.
  - rewrite (main_writable W).
    unfold notify at 1 2 3; cbn [emitted outcome events file_content print].
    rewrite notify_loop_emitted, notify_loop_outcome, notify_loop_files.
    cbn [emitted outcome events file_content].
    rewrite write_file_loop_emitted, write_file_loop_outcome,
      write_file_loop_events, str_eqb_refl, file_content_writes,
      sanitize_ending.
    repeat split.
    unfold notify, stdout; cbn [events flat_map print join].
    change (flat_map _ ?evs) with (stdout evs).
    rewrite notify_loop_stdout.
    + cbn [emitted outcome].
      rewrite write_file_loop_emitted, write_file_loop_outcome,
        sanitize_ending.
      rewrite length_map. change (ticks 0) with 0%nat.
      now rewrite Nat.sub_0_r.
    + cbn [events]. rewrite write_file_loop_events.
      unfold stdout; cbn [flat_map app].
      induction (items (sanitize (concatenate sources))) as [|line l IH];
        [reflexivity|exact IH].
Qed.

(** How a run ends is decided by its opens, in their order: with the error
    of the output file's open when that fails; else with the error of the
    first of the five fragment files whose open fails, which is
    [FileNotFoundError] for a file that does not exist; else well. *)
Theorem main_ends_by_its_opens :
  outcome run_main
  = match writable OUT_FILE with
    | Some e => Some e
    | None =>
        first_error
          (map (fun name => open_error fs (SOURCE name))
             [lit "readme_title.rst"; lit "readme_features.rst";
              lit "installation.rst"; lit "usage.rst";
              lit "readme_credits.rst"])
    end.
Proof.
  destruct (writable OUT_FILE) as [e|] eqn:W.
  - now rewrite (main_unwritable e W).
  - rewrite (main_writable W).
    unfold notify; cbn [outcome]. rewrite notify_loop_outcome.
    cbn [outcome]. rewrite write_file_loop_outcome, sanitize_ending.
    unfold include_documents.
    rewrite !concatenate_ending_cons, !read_text_ending, !read_source_ending.
    cbn [map first_error].
    destruct (open_error fs (SOURCE (lit "readme_title.rst")));
      destruct (open_error fs (SOURCE (lit "readme_features.rst")));
      destruct (open_error fs (SOURCE (lit "installation.rst")));
      destruct (open_error fs (SOURCE (lit "usage.rst")));
      destruct (open_error fs (SOURCE (lit "readme_credits.rst")));
      reflexivity.
Qed.

Lemma main_file (before : option str) :
  writable OUT_FILE = None ->
  file_content OUT_FILE before (events run_main)
  = Some (List.concat (items (sanitize (concatenate sources)))).
Proof.
  intros W. rewrite (main_writable W).
  unfold notify; cbn [events file_content print].
  rewrite notify_loop_files.
  cbn [events file_content].
  now rewrite write_file_loop_events, str_eqb_refl, file_content_writes.
Qed.

Local Abbreviation header file_name :=
  (percent FILE_HEADER (relpath file_name PROJECT)).

(** When the output file opens and the five fragment files are read, the
    output file holds the seven fragments in the order of
    [include_documents], each opened by its header line, sanitized on its
    own from the default language, and followed by the separator. *)
Theorem main_writes_fragment_by_fragment (title features installation usage
    credits : str) (before : option str) :
  writable OUT_FILE = None ->
  fs (SOURCE (lit "readme_title.rst")) = Some (Readable title) ->
  fs (SOURCE (lit "readme_features.rst")) = Some (Readable features) ->
  fs (SOURCE (lit "installation.rst")) = Some (Readable installation) ->
  fs (SOURCE (lit "usage.rst")) = Some (Readable usage) ->
  fs (SOURCE (lit "readme_credits.rst")) = Some (Readable credits) ->
  file_content OUT_FILE before (events run_main)
  = Some
      (List.concat
         (flat_map (fun f => items (sanitize (of_list f)) ++ [SEPARATOR])
            [header script :: splitlines comment_line;
             header script :: splitlines roles_override;
             header (SOURCE (lit "readme_title.rst"))
               :: readlines (universal_newlines title);
             header (SOURCE (lit "readme_features.rst"))
               :: readlines (universal_newlines features);
             header (SOURCE (lit "installation.rst"))
               :: readlines (universal_newlines installation);
             header (SOURCE (lit "usage.rst"))
               :: readlines (universal_newlines usage);
             header (SOURCE (lit "readme_credits.rst"))
               :: readlines (universal_newlines credits)])).
Proof.
  intros W H1 H2 H3 H4 H5.
  rewrite (main_file before W). do 2 f_equal.
  set (fragments :=
         [header script :: splitlines comment_line;
          header script :: splitlines roles_override;
          header (SOURCE (lit "readme_title.rst"))
            :: readlines (universal_newlines title);
          header (SOURCE (lit "readme_features.rst"))
            :: readlines (universal_newlines features);
          header (SOURCE (lit "installation.rst"))
            :: readlines (universal_newlines installation);
          header (SOURCE (lit "usage.rst"))
            :: readlines (universal_newlines usage);
          header (SOURCE (lit "readme_credits.rst"))
            :: readlines (universal_newlines credits)]).
  assert (Hsources : sources = sources_of fragments).
  { unfold include_documents, read_source, read_file, read_text, open_lines.
    rewrite H1, H2, H3, H4, H5, !yield_from_Return. reflexivity. }
  rewrite Hsources, sanitize_unfold, loop_concatenate, other_rules_concatenate
    by reflexivity.
  rewrite map_map, concatenate_sources, items_of_list.
  rewrite !flat_map_concat_map, map_map. f_equal.
  apply map_ext; intros f.
  rewrite sanitize_unfold, of_list_items
    by now rewrite code_blocks_loop_ending, ending_list.
  reflexivity.
Qed.
End RunFacts.

Lemma main_writes_fragment_by_fragment_witness :
  file_content (lit "/repo/README.rst") None
    (events
       (main example_relpath example_PROJECT example_script example_SOURCE
          example_fs_all (fun _ => None) (lit ".. banner")
          (lit "/repo/README.rst")))
  = Some
      (List.concat
         (flat_map (fun f => items (sanitize (of_list f)) ++ [SEPARATOR])
            [percent FILE_HEADER (example_relpath example_script example_PROJECT)
               :: splitlines (lit ".. banner");
             percent FILE_HEADER (example_relpath example_script example_PROJECT)
               :: splitlines roles_override;
             percent FILE_HEADER
               (example_relpath (example_SOURCE (lit "readme_title.rst"))
                  example_PROJECT)
               :: readlines
                    (universal_newlines
                       (lit "Title" ++ [LF] ++ lit "Example::" ++ [LF]));
             percent FILE_HEADER
               (example_relpath (example_SOURCE (lit "readme_features.rst"))
                  example_PROJECT)
               :: readlines
                    (universal_newlines
                       (lit "Title" ++ [LF] ++ lit "Example::" ++ [LF]));
             percent FILE_HEADER
               (example_relpath (example_SOURCE (lit "installation.rst"))
                  example_PROJECT)
               :: readlines
                    (universal_newlines
                       (lit "Title" ++ [LF] ++ lit "Example::" ++ [LF]));
             percent FILE_HEADER
               (example_relpath (example_SOURCE (lit "usage.rst"))
                  example_PROJECT)
               :: readlines
                    (universal_newlines
                       (lit "Title" ++ [LF] ++ lit "Example::" ++ [LF]));
             percent FILE_HEADER
               (example_relpath (example_SOURCE (lit "readme_credits.rst"))
                  example_PROJECT)
               :: readlines
                    (universal_newlines
                       (lit "Title" ++ [LF] ++ lit "Example::" ++ [LF]))])).
Proof.
  apply (main_writes_fragment_by_fragment example_relpath example_PROJECT
           example_script example_SOURCE example_fs_all (fun _ => None)
           (lit ".. banner") (lit "/repo/README.rst")
           (lit "Title" ++ [LF] ++ lit "Example::" ++ [LF])
           (lit "Title" ++ [LF] ++ lit "Example::" ++ [LF])
           (lit "Title" ++ [LF] ++ lit "Example::" ++ [LF])
           (lit "Title" ++ [LF] ++ lit "Example::" ++ [LF])
           (lit "Title" ++ [LF] ++ lit "Example::" ++ [LF]) None);
    reflexivity.
Defined.

(** A run on a project without any fragment file: the output file is left
    with the two texts of the script and the header of the first file. *)
Example main_without_sources :
  file_content (lit "/repo/README.rst") None
    (events
       (main example_relpath example_PROJECT example_script example_SOURCE
          (fun _ => None) (fun _ => None) (lit ".. banner")
          (lit "/repo/README.rst")))
  = Some
      (lit ".. Source defined in docs/github_readme.py" ++ [LF; LF]
         ++ lit ".. banner" ++ SEPARATOR
         ++ lit ".. Source defined in docs/github_readme.py" ++ [LF; LF]
         ++ roles_override ++ SEPARATOR
         ++ lit ".. Source defined in docs/source/readme_title.rst" ++ [LF; LF]).
Proof. reflexivity. Qed.

(** A run whose output path names a directory: it has printed that it
    writes, and ends there. *)
Example main_unwritable_output :
  main example_relpath example_PROJECT example_script example_SOURCE
    example_fs_all (fun _ => Some IsADirectoryError) (lit ".. banner")
    (lit "/repo")
  = Do (Print (lit "Writing README.rst")) (Fail IsADirectoryError).
Proof. reflexivity. Qed.

(** Reading a path that names a directory: the header line, then the
    error of the open. *)
Example read_file_directory :
  read_file example_relpath example_PROJECT example_fs_crlf
    (lit "/repo/docs/source")
  = Yield (lit ".. Source defined in docs/source" ++ [LF; LF])
      (Raise IsADirectoryError).
Proof. reflexivity. Qed.
